(** * mkinit/formatting.py: the insertion-point locator and the merge

    A shallow embedding of [_find_insert_points], [_indent] and
    [_insert_autogen_text] of [mkinit/formatting.py], and the properties of
    the locator and of the merge that the specification states.

    Python values are modelled as follows.
    - [str] is [string]; a character is an [ascii], read as the code point
      of the same number (code points below 256).
    - [int] is [Z]; line numbers, [startline], [endline] and the entries of
      [ps1_lines] are integers, so that a scanner reporting any integer is
      covered.
    - A list is a [list]; Python's slices [l[:k]] and [l[k:]] are written
      out with their treatment of negative and of too large bounds.
    - An exception is an alternative of the result type [outcome].

    The scanner [static._locate_ps1_linenos] belongs to another module of
    the package: the locator and the merge are modelled over any scanner,
    and the theorems say what they ask of it.  [_insert_autogen_text] is
    modelled from the lines it has read; the path it also returns is left
    out.

    The file ends with the other functions of the module:
    [_ensure_options], over a [dict] kept as the list of its items; the
    local function [append_part] of [_initstr] with the join of the parts;
    [_make_imports_str], with the part of the [%] formatting it uses; and
    [_packed_rhs_text] and [_make_fromimport_str] over the two functions
    of [textwrap] they call. *)

From Stdlib Require Import String Ascii List ZArith Lia Bool Sorted.
Import ListNotations.

Local Open Scope string_scope.
Local Open Scope Z_scope.

(** ** Python's string methods *)

Module Py.

(** The newline character and the one-character string ['\n']. *)
Definition NL : ascii := "010"%char.
Definition nl : string := String NL "".

(** [c.isspace()] for a code point below 256: tab, line feed, vertical tab,
    form feed, carriage return, the four separators 28..31, space, NEL
    (133) and the no-break space (160). *)
Definition isspace (c : ascii) : bool :=
  let n := N_of_ascii c in
  (((9 <=? n) && (n <=? 13)) || ((28 <=? n) && (n <=? 32))
   || (n =? 133) || (n =? 160))%N.

(** [s.lstrip(chars)], with the set of characters given as a predicate. *)
Fixpoint lstrip_with (f : ascii -> bool) (s : string) : string :=
  match s with
  | EmptyString => EmptyString
  | String c s' => if f c then lstrip_with f s' else s
  end.

(** [s.rstrip(chars)]: a character goes when it is in the set and all that
    follows it has gone. *)
Fixpoint rstrip_with (f : ascii -> bool) (s : string) : string :=
  match s with
  | EmptyString => EmptyString
  | String c s' =>
      match rstrip_with f s' with
      | EmptyString => if f c then EmptyString else String c EmptyString
      | r => String c r
      end
  end.

Definition lstrip : string -> string := lstrip_with isspace.
Definition rstrip : string -> string := rstrip_with isspace.

(** [s.strip()] *)
Definition strip (s : string) : string := lstrip (rstrip s).

(** [s.startswith(p)] and [s.startswith(tuple)] *)
Definition startswith (s p : string) : bool := String.prefix p s.

Definition startswith_any (s : string) (ps : list string) : bool :=
  existsb (startswith s) ps.

(** [s.find(c)] for a one-character [c]: the first index, or [-1]. *)
Fixpoint find (c : ascii) (s : string) : Z :=
  match s with
  | EmptyString => -1
  | String d s' =>
      if Ascii.eqb d c then 0
      else let r := find c s' in if r <? 0 then -1 else r + 1
  end.

(** The bound of a slice, as Python normalises it: a negative bound counts
    from the end, and the result is clipped to [0 .. len]. *)
Definition slice_bound (k len : Z) : nat :=
  Z.to_nat (Z.min (Z.max (if k <? 0 then k + len else k) 0) len).

(** [s[:k]] on a string *)
Definition str_upto (k : Z) (s : string) : string :=
  substring 0 (slice_bound k (Z.of_nat (String.length s))) s.

(** [l[:k]] and [l[k:]] on a list *)
Definition upto {A : Type} (k : Z) (l : list A) : list A :=
  firstn (slice_bound k (Z.of_nat (List.length l))) l.

Definition from {A : Type} (k : Z) (l : list A) : list A :=
  skipn (slice_bound k (Z.of_nat (List.length l))) l.

(** [text.replace('\n', by)] *)
Fixpoint replace_nl (by_ : string) (text : string) : string :=
  match text with
  | EmptyString => EmptyString
  | String c s' =>
      if Ascii.eqb c NL then by_ ++ replace_nl by_ s'
      else String c (replace_nl by_ s')
  end.

(** [text.split('\n')]: never empty, one more piece than newlines. *)
Fixpoint split_nl (text : string) : list string :=
  match text with
  | EmptyString => [EmptyString]
  | String c s' =>
      if Ascii.eqb c NL then EmptyString :: split_nl s'
      else match split_nl s' with
           | [] => [String c EmptyString]
           | piece :: pieces => String c piece :: pieces
           end
  end.

(** [sep.join(pieces)] *)
Definition join (sep : string) (pieces : list string) : string :=
  String.concat sep pieces.

(** [file_.readlines()] on the text of a file: every line keeps its
    newline, and a last line without one is a line too. *)
Fixpoint readlines (text : string) : list string :=
  match text with
  | EmptyString => []
  | String c s' =>
      if Ascii.eqb c NL then nl :: readlines s'
      else match readlines s' with
           | [] => [String c EmptyString]
           | line :: lines => String c line :: lines
           end
  end.

(** [l.index(x)]: the first position of [x]; [None] is [ValueError]. *)
Fixpoint index (x : Z) (l : list Z) : option nat :=
  match l with
  | [] => None
  | y :: l' => if y =? x then Some 0%nat else option_map S (index x l')
  end.

End Py.

Import Py.

(** ** The locator and the merge *)

(** What a call of the code returns: a value, or the [AssertionError] of one
    of its two [assert]s, or an exception of the scanner that the code does
    not catch. *)
Inductive outcome (A : Type) : Type :=
| Return (a : A)
| AssertionError
| ScannerError.

Arguments Return {A} a.
Arguments AssertionError {A}.
Arguments ScannerError {A}.

(** What the call [static._locate_ps1_linenos(source_lines)] gives: the
    list [ps1_lines] (the second component of its result is dropped by the
    caller), or the [IndexError] the caller catches, or another exception. *)
Inductive scan : Type :=
| Ps1Lines (ps1_lines : list Z)
| IndexError
| OtherError.

(** The local variables the loop of [_find_insert_points] updates. *)
Record locals : Type := mkLocals {
  startline : Z;
  endline : Z;
  explicit_flag : bool;
  init_indent : string;
  skipto : option Z
}.

Definition set_startline (v : Z) (st : locals) : locals :=
  mkLocals v (endline st) (explicit_flag st) (init_indent st) (skipto st).

Definition set_endline (v : Z) (st : locals) : locals :=
  mkLocals (startline st) v (explicit_flag st) (init_indent st) (skipto st).

Definition set_skipto (v : option Z) (st : locals) : locals :=
  mkLocals (startline st) (endline st) (explicit_flag st) (init_indent st) v.

(** The three quote characters of a triple-quoted string. *)
Definition triple_dquote : string :=
  String "034"%char (String "034"%char (String "034"%char "")).

Definition implicit_patterns : list string :=
  [ "from __future__"; "__version__"; "__submodules__";
    "__external__"; "__private__"; "__protected__";
    "#"; triple_dquote; "'''" ].

Definition start_tag : string := "# <AUTOGEN_INIT>".
Definition end_tag : string := "# </AUTOGEN_INIT>".

(** The three tests the loop makes on a line. *)
Definition is_implicit (line : string) : bool :=
  startswith_any (strip line) implicit_patterns.

Definition is_start_tag (line : string) : bool :=
  startswith (strip line) start_tag.

Definition is_end_tag (line : string) : bool :=
  startswith (strip line) end_tag.

(** The [try] block: [idx = ps1_lines.index(lineno)] and then
    [ps1_lines[idx + 1]]; the first can raise [ValueError], the second
    [IndexError]. *)
Inductive ps1_lookup : Type :=
| NotPs1            (* ValueError *)
| LastPs1           (* IndexError *)
| NextPs1 (b : Z).

Definition ps1_next (ps1_lines : list Z) (lineno : Z) : ps1_lookup :=
  match index lineno ps1_lines with
  | None => NotPs1
  | Some idx =>
      match nth_error ps1_lines (S idx) with
      | None => LastPs1
      | Some b => NextPs1 b
      end
  end.

(** [if not explicit_flag:] and then
    [if line.strip().startswith(implicit_patterns): ...] *)
Definition on_implicit_pattern (ps1_lines : list Z) (lineno : Z)
    (line : string) (st : locals) : locals :=
  if negb (explicit_flag st) && is_implicit line then
    let st := set_startline (lineno + 1) st in
    match ps1_next ps1_lines lineno with
    | NextPs1 b => set_startline b (set_skipto (Some b) st)
    | NotPs1 => st
    | LastPs1 => set_startline (endline st) st
    end
  else st.

(** [if line.strip().startswith('# <AUTOGEN_INIT>'): ...] *)
Definition on_start_tag (lineno : Z) (line : string) (st : locals) : locals :=
  if is_start_tag line then
    mkLocals (lineno + 1) (endline st) true
             (str_upto (find "#"%char line) line) (skipto st)
  else st.

(** [if explicit_flag and line.strip().startswith('# </AUTOGEN_INIT>'):
    ...] *)
Definition on_end_tag (lineno : Z) (line : string) (st : locals) : locals :=
  if explicit_flag st && is_end_tag line then set_endline lineno st else st.

(** One turn of the [for] loop. *)
Definition body (ps1_lines : list Z) (lineno : Z) (line : string)
    (st : locals) : locals :=
  let evaluate st :=
    on_end_tag lineno line
      (on_start_tag lineno line
         (on_implicit_pattern ps1_lines lineno line st)) in
  match skipto st with
  | Some target =>
      if negb (lineno =? target) then st      (* continue *)
      else evaluate (set_skipto None st)
  | None => evaluate st
  end.

(** [for lineno, line in enumerate(lines)], from line number [lineno] on. *)
Fixpoint loop (ps1_lines : list Z) (lineno : Z) (lines : list string)
    (st : locals) : locals :=
  match lines with
  | [] => st
  | line :: rest =>
      loop ps1_lines (lineno + 1) rest (body ps1_lines lineno line st)
  end.

(** [assert startline <= endline] and the [return]. *)
Definition finish (st : locals) : outcome (Z * Z * string) :=
  if startline st <=? endline st
  then Return (startline st, endline st, init_indent st)
  else AssertionError.

Definition initial (lines : list string) : locals :=
  mkLocals 0 (Z.of_nat (List.length lines)) false "" None.

(** [['>>> ' + p.rstrip('\n') for p in lines]] *)
Definition source_lines (lines : list string) : list string :=
  map (fun p => ">>> " ++ rstrip_with (Ascii.eqb NL) p) lines.

(** [_indent(text, indent)] *)
Definition _indent (text indent : string) : string :=
  let new_text := indent ++ replace_nl (nl ++ indent) text in
  join nl (map rstrip (split_nl new_text)).

Section Locator.

(** [static._locate_ps1_linenos] is a function of another module of the
    package: the statement-boundary scanner.  The locator is modelled over
    any such function. *)
Variable _locate_ps1_linenos : list string -> scan.

(** The [try] ... [except IndexError] around the call of the scanner. *)
Definition ps1_lines_of (lines : list string) : outcome (list Z) :=
  match _locate_ps1_linenos (source_lines lines) with
  | Ps1Lines ps1_lines => Return ps1_lines
  | IndexError =>
      (* assert len(lines) == 0; ps1_lines = [] *)
      if (List.length lines =? 0)%nat then Return [] else AssertionError
  | OtherError => ScannerError
  end.

Definition _find_insert_points (lines : list string)
    : outcome (Z * Z * string) :=
  match ps1_lines_of lines with
  | Return ps1_lines => finish (loop ps1_lines 0 lines (initial lines))
  | AssertionError => AssertionError
  | ScannerError => ScannerError
  end.

(** [_insert_autogen_text], from the call of the locator on: [lines] is
    what [file_.readlines()] gave, or the empty list when there is no file;
    the result is [new_text]. *)
Definition _insert_autogen_text (lines : list string) (initstr : string)
    : outcome string :=
  match _find_insert_points lines with
  | Return (startline, endline, init_indent) =>
      let initstr_ := _indent initstr init_indent ++ nl in
      let new_lines :=
        (upto startline lines ++ [initstr_] ++ from endline lines)%list in
      Return (rstrip (join "" new_lines) ++ nl)
  | AssertionError => AssertionError
  | ScannerError => ScannerError
  end.

End Locator.

(** A scanner for a file in which every line is a statement of its own;
    on no line at all it raises the [IndexError] that the locator catches. *)
Definition each_line (src : list string) : scan :=
  match src with
  | [] => IndexError
  | _ => Ps1Lines (map Z.of_nat (seq 0 (List.length src)))
  end.

(** ** Notions the statements use *)

(** A string of whitespace only: a blank line. *)
Definition blank (s : string) : bool :=
  match rstrip s with EmptyString => true | _ => false end.

(** The last character of a string is a whitespace character. *)
Fixpoint trailing_space (s : string) : bool :=
  match s with
  | EmptyString => false
  | String c EmptyString => isspace c
  | String _ s' => trailing_space s'
  end.

(** The string has no newline. *)
Fixpoint no_newline (s : string) : bool :=
  match s with
  | EmptyString => true
  | String c s' => negb (Ascii.eqb c NL) && no_newline s'
  end.

(** The string is a line as [readlines] gives one: not empty, and with no
    newline but possibly its last character. *)
Fixpoint is_line (s : string) : bool :=
  match s with
  | EmptyString => false
  | String c EmptyString => true
  | String c s' => negb (Ascii.eqb c NL) && is_line s'
  end.

(** The line ends with a newline. *)
Fixpoint ends_nl (s : string) : bool :=
  match s with
  | EmptyString => false
  | String c EmptyString => Ascii.eqb c NL
  | String _ s' => ends_nl s'
  end.

(** Every statement that matches an implicit pattern is a line of its
    own, in a file of [len] lines: a line that matches an implicit pattern
    and is a boundary has its next boundary on the following line, or is
    the last boundary and the last line of the file. *)
Fixpoint by_line (ps1_lines : list Z) (len lineno : Z) (lines : list string)
    : bool :=
  match lines with
  | [] => true
  | line :: rest =>
      (if is_implicit line then
         match ps1_next ps1_lines lineno with
         | NextPs1 b => b =? lineno + 1
         | LastPs1 => lineno + 1 =? len
         | NotPs1 => true
         end
       else true) && by_line ps1_lines len (lineno + 1) rest
  end.

(** The position, in [lines], of the last line that assigns [startline]
    when every line is evaluated and [explicit_flag] is [explicit] before
    the first: a start tag, or a line that matches an implicit pattern before
    any start tag. *)
Fixpoint last_start (explicit : bool) (lines : list string) : option nat :=
  match lines with
  | [] => None
  | line :: rest =>
      match last_start (explicit || is_start_tag line) rest with
      | Some k => Some (S k)
      | None =>
          if is_start_tag line || (negb explicit && is_implicit line)
          then Some 0%nat else None
      end
  end.

(** The position of the last line that assigns [endline]: an end tag on
    or after a start tag. *)
Fixpoint last_end (explicit : bool) (lines : list string) : option nat :=
  match lines with
  | [] => None
  | line :: rest =>
      match last_end (explicit || is_start_tag line) rest with
      | Some k => Some (S k)
      | None =>
          if (explicit || is_start_tag line) && is_end_tag line
          then Some 0%nat else None
      end
  end.

(** The indentation of the last start tag. *)
Fixpoint last_indent (lines : list string) : option string :=
  match lines with
  | [] => None
  | line :: rest =>
      match last_indent rest with
      | Some indent => Some indent
      | None =>
          if is_start_tag line
          then Some (str_upto (find "#"%char line) line) else None
      end
  end.

(** The locals after a pass that evaluates every line of [lines], which
    are numbered from [lineno] on. *)
Definition plain_pass (lineno : Z) (lines : list string) (st : locals)
    : locals :=
  mkLocals
    (match last_start (explicit_flag st) lines with
     | Some k => lineno + Z.of_nat k + 1
     | None => startline st
     end)
    (match last_end (explicit_flag st) lines with
     | Some k => lineno + Z.of_nat k
     | None => endline st
     end)
    (explicit_flag st || existsb is_start_tag lines)
    (match last_indent lines with
     | Some indent => indent
     | None => init_indent st
     end)
    None.

(** What every turn of the loop keeps, in a file of [len] lines. *)
Definition in_file (len : Z) (st : locals) : Prop :=
  0 <= startline st /\ 0 <= endline st <= len.

(** Two runs of the loop, the second without jumps, agree before line
    [lineno]: on [endline], [explicit_flag] and [init_indent], and on
    [startline] once a start tag was seen; the first is not skipping. *)
Definition agree_tags (lineno : Z) (st st' : locals) : Prop :=
  endline st = endline st' /\
  explicit_flag st = explicit_flag st' /\
  init_indent st = init_indent st' /\
  skipto st' = None /\
  (skipto st = None \/ skipto st = Some lineno) /\
  (explicit_flag st = true -> startline st = startline st').

(** They agree on [startline] too, in a file of [len] lines. *)
Definition agree_all (len lineno : Z) (st st' : locals) : Prop :=
  agree_tags lineno st st' /\
  startline st = startline st' /\
  (explicit_flag st = false -> endline st = len).

(** The end-of-file normalisation, as the specification words it: [out] is
    [text] with the whitespace at its end replaced by exactly one newline. *)
Definition normalized (text out : string) : Prop :=
  exists kept spaces,
    text = kept ++ spaces /\ blank spaces = true /\
    trailing_space kept = false /\ out = kept ++ nl.

(** The lines are as [readlines] gives them: each is a line, and each but
    the last ends with a newline. *)
Fixpoint file_lines (lines : list string) : bool :=
  match lines with
  | [] => true
  | [line] => is_line line
  | line :: rest => is_line line && ends_nl line && file_lines rest
  end.


(** ** The lines the pass evaluates *)

(** The test at the head of the loop body: with [skipto] set to another
    line number, the line is passed over ([continue]). *)
Definition skipped (lineno : Z) (st : locals) : bool :=
  match skipto st with
  | Some target => negb (lineno =? target)
  | None => false
  end.

(** The pass evaluates the line at index [k] of [lines]: it does not pass
    over it.  The lines are numbered from [lineno] on, and [st] holds the
    locals before the first of them. *)
Fixpoint evaluated_from (ps1_lines : list Z) (lineno : Z)
    (lines : list string) (st : locals) (k : nat) : bool :=
  match lines with
  | [] => false
  | line :: rest =>
      match k with
      | O => negb (skipped lineno st)
      | S k' =>
          evaluated_from ps1_lines (lineno + 1) rest
            (body ps1_lines lineno line st) k'
      end
  end.

Definition evaluated (ps1_lines : list Z) (lines : list string) (k : nat)
    : bool :=
  evaluated_from ps1_lines 0 lines (initial lines) k.



(** The lines as the pass takes them: a line it passes over counts as the
    empty line, which matches no pattern. *)
Fixpoint seen_from (ps1_lines : list Z) (lineno : Z) (lines : list string)
    (st : locals) : list string :=
  match lines with
  | [] => []
  | line :: rest =>
      (if skipped lineno st then "" else line)
      :: seen_from ps1_lines (lineno + 1) rest
           (body ps1_lines lineno line st)
  end.

Definition seen (ps1_lines : list Z) (lines : list string) : list string :=
  seen_from ps1_lines 0 lines (initial lines).

(** A line as the pass takes it: the line, or the empty line. *)
Definition masks (v line : string) : Prop := v = line \/ v = "".


(** The pass and the pass without jumps on the lines as the pass takes
    them agree: on [endline], [explicit_flag] and [init_indent], and on
    [startline] once a start tag was seen. *)
Definition agree_explicit (st st' : locals) : Prop :=
  endline st = endline st' /\
  explicit_flag st = explicit_flag st' /\
  init_indent st = init_indent st' /\
  skipto st' = None /\
  (explicit_flag st = true -> startline st = startline st').

(** ** The options *)

(** A [dict] with [str] keys and [bool] values, as the list of its items
    in insertion order; a dict has each key once. *)
Definition dict : Type := list (string * bool).

(** [k in d] *)
Definition dict_mem (k : string) (d : dict) : bool :=
  existsb (fun item => String.eqb (fst item) k) d.

(** [d.get(k)]: the value, or [None]. *)
Fixpoint dict_get (k : string) (d : dict) : option bool :=
  match d with
  | [] => None
  | (k', v) :: d' => if String.eqb k' k then Some v else dict_get k d'
  end.

(** [d[k] = v]: a key of the dict keeps its place, a new key goes last. *)
Fixpoint dict_set (k : string) (v : bool) (d : dict) : dict :=
  match d with
  | [] => [(k, v)]
  | (k', v') :: d' =>
      if String.eqb k' k then (k, v) :: d' else (k', v') :: dict_set k v d'
  end.

(** [d.update(other)] *)
Definition dict_update (d other : dict) : dict :=
  fold_left (fun acc item => dict_set (fst item) (snd item) acc) other d.

(** What [_ensure_options] gives: the options, or the [KeyError] with its
    message. *)
Inductive ensured : Type :=
| Options (options : dict)
| KeyError (message : string).

Definition default_options : dict :=
  [ ("with_attrs", true); ("with_mods", true); ("with_all", true);
    ("relative", false) ].

(** The first key of [given_options] that is not in [default_options]. *)
Fixpoint bad_key (given_options : dict) : option string :=
  match given_options with
  | [] => None
  | (k, _) :: rest =>
      if negb (dict_mem k default_options) then Some k else bad_key rest
  end.

(** [_ensure_options(given_options)]; [None] is Python's [None]. *)
Definition _ensure_options (given_options : option dict) : ensured :=
  let given_options :=
    match given_options with
    | None => []
    | Some given => given
    end in
  match bad_key given_options with
  | Some k => KeyError ("options got bad key=" ++ k)
  | None => Options (dict_update default_options given_options)
  end.


(** ** The string makers *)

(** The truth value of a [str]: [if new_part:]. *)
Definition truth (s : string) : bool :=
  match s with EmptyString => false | _ => true end.

(** [append_part], the local function of [_initstr], on the list [parts]
    it appends to. *)
Definition append_part (new_part : string) (parts : list string)
    : list string :=
  if truth new_part then
    let parts :=
      match parts with
      | [] => parts
      | _ => (parts ++ [""])%list      (* parts.append('') *)
      end in
    (parts ++ [new_part])%list
  else parts.

(** The parts of [_initstr] after its calls of [append_part], in their
    order, and its last line: ['\n'.join([p for p in parts])]. *)
Definition append_parts (new_parts : list string) : list string :=
  fold_left (fun parts new_part => append_part new_part parts) new_parts [].

Definition join_parts (new_parts : list string) : string :=
  join nl (append_parts new_parts).

(** What a formatting expression gives: the text, or the [TypeError] of an
    argument count that does not fit the format, or [OtherFormat] when the
    format leaves the part of the format language that is modelled. *)
Inductive formatted (A : Type) : Type :=
| Formatted (a : A)
| TypeError
| OtherFormat.

Arguments Formatted {A} a.
Arguments TypeError {A}.
Arguments OtherFormat {A}.

Definition prepend (s : string) (r : formatted string) : formatted string :=
  match r with
  | Formatted text => Formatted (s ++ text)
  | TypeError => TypeError
  | OtherFormat => OtherFormat
  end.

(** [fmt % arg] for one [str] argument (given as it is or in a one-item
    tuple), read from left to right; [used] says that the argument has been
    taken.  [%s] takes the argument, and raises [TypeError] when it has been
    taken already; [%%] gives a percent sign; at the end of the format an
    argument that was not taken raises [TypeError].  Every other use of the
    percent sign (another conversion, a flag, a width, a mapping key, a
    percent sign that ends the format) is outside the model. *)
Fixpoint percent_from (used : bool) (fmt arg : string) : formatted string :=
  match fmt with
  | EmptyString => if used then Formatted "" else TypeError
  | String c rest =>
      if Ascii.eqb c "%" then
        match rest with
        | String d rest' =>
            if Ascii.eqb d "s" then
              if used then TypeError
              else prepend arg (percent_from true rest' arg)
            else if Ascii.eqb d "%" then
              prepend "%" (percent_from used rest' arg)
            else OtherFormat
        | EmptyString => OtherFormat
        end
      else prepend (String c "") (percent_from used rest arg)
  end.

Definition percent (fmt arg : string) : formatted string :=
  percent_from false fmt arg.

(** A list comprehension over [f]: the first exception ends it. *)
Fixpoint comprehension {A B : Type} (f : A -> formatted B) (l : list A)
    : formatted (list B) :=
  match l with
  | [] => Formatted []
  | x :: l' =>
      match f x with
      | Formatted y =>
          match comprehension f l' with
          | Formatted ys => Formatted (y :: ys)
          | TypeError => TypeError
          | OtherFormat => OtherFormat
          end
      | TypeError => TypeError
      | OtherFormat => OtherFormat
      end
  end.

(** [name.lstrip('.')] *)
Definition lstrip_dots : string -> string := lstrip_with (Ascii.eqb ".").

(** [_make_imports_str(imports, rootmodname)]: the branch that runs, the
    one under [else]. *)
Definition _make_imports_str (imports : list string) (rootmodname : string)
    : formatted string :=
  let imports_fmtstr := "from " ++ rootmodname ++ " import %s" in
  match comprehension
          (fun name =>
             if startswith name "."
             then percent imports_fmtstr (lstrip_dots name)
             else percent "import %s" name)
          imports with
  | Formatted pieces => Formatted (join nl pieces)
  | TypeError => TypeError
  | OtherFormat => OtherFormat
  end.

(** The string has no percent sign. *)
Fixpoint no_percent (s : string) : bool :=
  match s with
  | EmptyString => true
  | String c s' => negb (Ascii.eqb c "%") && no_percent s'
  end.

Section Wrapping.

(** [textwrap.wrap(raw_text, break_long_words=False, width=79,
    initial_indent='', subsequent_indent=newline_prefix)], as a function of
    [raw_text] and [newline_prefix], and [textwrap.dedent]: functions of
    Python's library, and the string makers are modelled over any such
    functions. *)
Variable wrap : string -> string -> list string.
Variable dedent : string -> string.

(** [' ' * n] *)
Fixpoint spaces (n : nat) : string :=
  match n with
  | O => ""
  | S n' => String " " (spaces n')
  end.

(** [_packed_rhs_text(lhs_text, rhs_text)] *)
Definition _packed_rhs_text (lhs_text rhs_text : string) : string :=
  let newline_prefix := spaces (String.length lhs_text) in
  let raw_text := lhs_text ++ rhs_text in
  join nl (wrap raw_text newline_prefix).

(** [_pack_fromimport(tup)], the local function of
    [_make_fromimport_str]. *)
Definition _pack_fromimport (rootmodname indent : string)
    (tup : string * list string) : string :=
  let name := fst tup in
  let fromlist := snd tup in
  let normname :=
    if startswith name "." then rootmodname ++ name else name in
  if (0 <? List.length fromlist)%nat then
    let lhs_text := indent ++ "from " ++ normname ++ " import (" in
    let rhs_text := join ", " fromlist ++ ",)" in
    _packed_rhs_text lhs_text rhs_text
  else "".

(** [_make_fromimport_str(from_imports, rootmodname, indent)] *)
Definition _make_fromimport_str (from_imports : list (string * list string))
    (rootmodname indent : string) : string :=
  let rootmodname :=
    if String.eqb rootmodname "." then "" else rootmodname in
  let parts := map (_pack_fromimport rootmodname indent) from_imports in
  let from_str := join nl (filter truth parts) in
  dedent from_str.

End Wrapping.
(** ** The lookup in [ps1_lines] *)

Lemma index_nth_error (x : Z) (l : list Z) (i : nat) :
  index x l = Some i -> nth_error l i = Some x.
Proof.
  revert i; induction l as [|y l IH]; intros i H; simpl in H.
  - discriminate.
  - destruct (y =? x) eqn:E.
    + injection H as <-. apply Z.eqb_eq in E. now subst.
    + destruct (index x l) as [j|]; simpl in H; [|discriminate].
      injection H as <-. simpl. now apply IH.
Qed.

Lemma ps1_next_In (ps1_lines : list Z) (lineno b : Z) :
  ps1_next ps1_lines lineno = NextPs1 b -> In b ps1_lines.
Proof.
  unfold ps1_next. destruct (index lineno ps1_lines) as [i|]; [|discriminate].
  destruct (nth_error ps1_lines (S i)) as [c|] eqn:E; [|discriminate].
  intros [= <-]. eapply nth_error_In; eassumption.
Qed.

(** ** The bounds of the insertion point *)

Section Bounds.

Variable ps1_lines : list Z.
Variable len : Z.
Hypothesis ps1_within : Forall (fun b => 0 <= b <= len) ps1_lines.

Lemma body_in_file (lineno : Z) (line : string) (st : locals) :
  0 <= lineno < len -> in_file len st -> in_file len (body ps1_lines lineno line st).
Proof.
  intros Hn [Hs He]. unfold body.
  assert (Hev : forall st0, in_file len st0 ->
            in_file len (on_end_tag lineno line
              (on_start_tag lineno line
                 (on_implicit_pattern ps1_lines lineno line st0)))).
  { clear st Hs He. intros st [Hs He].
    assert (H1 : in_file len (on_implicit_pattern ps1_lines lineno line st)).
    { unfold on_implicit_pattern.
      destruct (negb (explicit_flag st) && is_implicit line); [|now split].
      destruct (ps1_next ps1_lines lineno) as [| |b] eqn:E;
        unfold in_file; simpl; try lia.
      apply ps1_next_In in E.
      rewrite Forall_forall in ps1_within. specialize (ps1_within b E).
      simpl in ps1_within. lia. }
    assert (H2 : in_file len (on_start_tag lineno line
                            (on_implicit_pattern ps1_lines lineno line st))).
    { unfold on_start_tag. destruct (is_start_tag line); [|exact H1].
      destruct H1 as [_ H1]. unfold in_file; simpl. lia. }
    unfold on_end_tag.
    destruct (explicit_flag _ && is_end_tag line); [|exact H2].
    destruct H2 as [H2 _]. unfold in_file in *; simpl in *. lia. }
  destruct (skipto st) as [t|] eqn:Et.
  - destruct (negb (lineno =? t)); [now split|].
    apply Hev. now split.
  - apply Hev. now split.
Qed.

Lemma loop_in_file (lines : list string) (lineno : Z) (st : locals) :
  0 <= lineno -> lineno + Z.of_nat (List.length lines) <= len ->
  in_file len st -> in_file len (loop ps1_lines lineno lines st).
Proof.
  revert lineno st. induction lines as [|line rest IH]; intros lineno st H0 Hl Hst.
  - exact Hst.
  - simpl. simpl List.length in Hl. apply IH; try lia.
    apply body_in_file; [lia|exact Hst].
Qed.

End Bounds.

(** ** Strings *)

Lemma append_nil_r (s : string) : s ++ "" = s.
Proof. induction s; simpl; congruence. Qed.

Lemma append_assoc (a b c : string) : (a ++ b) ++ c = a ++ (b ++ c).
Proof. induction a; simpl; congruence. Qed.

Lemma append_inv_head (a b c : string) : a ++ b = a ++ c -> b = c.
Proof. induction a; simpl; intros H; [exact H|]. injection H as H. auto. Qed.

Lemma append_eq_nil (a b : string) : a ++ b = "" -> a = "" /\ b = "".
Proof. destruct a; simpl; [auto|discriminate]. Qed.

(** *** [rstrip] *)

Lemma rstrip_app (f : ascii -> bool) (a b : string) :
  rstrip_with f (a ++ b) =
  match rstrip_with f b with
  | EmptyString => rstrip_with f a
  | _ => a ++ rstrip_with f b
  end.
Proof.
  induction a as [|c a IH]; simpl.
  - now destruct (rstrip_with f b).
  - rewrite IH. destruct (rstrip_with f b) as [|x r]; [reflexivity|].
    now destruct a.
Qed.

Lemma rstrip_idem (f : ascii -> bool) (s : string) :
  rstrip_with f (rstrip_with f s) = rstrip_with f s.
Proof.
  induction s as [|c s IH]; simpl; [reflexivity|].
  destruct (rstrip_with f s) as [|x r] eqn:E.
  - destruct (f c) eqn:Ec; simpl; [reflexivity|now rewrite Ec].
  - change (rstrip_with f (String c (String x r))) with
      (match rstrip_with f (String x r) with
       | EmptyString => if f c then EmptyString else String c EmptyString
       | r0 => String c r0 end).
    now rewrite IH.
Qed.

Lemma rstrip_split (f : ascii -> bool) (s : string) :
  exists w, s = rstrip_with f s ++ w /\ rstrip_with f w = "".
Proof.
  induction s as [|c s [w [Hs Hw]]]; simpl.
  - now exists "".
  - destruct (rstrip_with f s) as [|x r] eqn:E.
    + destruct (f c) eqn:Ec.
      * exists (String c s). split; [reflexivity|]. simpl. now rewrite E, Ec.
      * exists s. split; [reflexivity|exact E].
    + exists w. split; [|exact Hw]. simpl in *. congruence.
Qed.

Lemma rstrip_blank_r (f : ascii -> bool) (a w : string) :
  rstrip_with f w = "" -> rstrip_with f (a ++ w) = rstrip_with f a.
Proof. intros H. now rewrite rstrip_app, H. Qed.

Lemma rstrip_rstrip_r (f : ascii -> bool) (a s : string) :
  rstrip_with f (a ++ rstrip_with f s) = rstrip_with f (a ++ s).
Proof. now rewrite !rstrip_app, rstrip_idem. Qed.

Lemma rstrip_nl : rstrip nl = "".
Proof. reflexivity. Qed.

Lemma rstrip_app_nl (s : string) : rstrip (s ++ nl) = rstrip s.
Proof. apply rstrip_blank_r. reflexivity. Qed.

Lemma trailing_space_rstrip (s : string) : trailing_space (rstrip s) = false.
Proof.
  unfold rstrip. induction s as [|c s IH]; simpl; [reflexivity|].
  destruct (rstrip_with isspace s) as [|x r] eqn:E.
  - destruct (isspace c) eqn:Ec; simpl; [reflexivity|exact Ec].
  - exact IH.
Qed.

Lemma blank_rstrip (s : string) : blank s = true <-> rstrip s = "".
Proof.
  unfold blank. destruct (rstrip s); split; intros; congruence.
Qed.

Lemma blank_false_rstrip (s : string) : blank s = false <-> rstrip s <> "".
Proof.
  unfold blank. destruct (rstrip s); split; intros; congruence.
Qed.

Lemma rstrip_app_nonblank (a b : string) :
  blank b = false -> rstrip (a ++ b) = a ++ rstrip b.
Proof.
  intros H. apply blank_false_rstrip in H. unfold rstrip in *.
  rewrite rstrip_app. now destruct (rstrip_with isspace b).
Qed.

Lemma rstrip_app_blank (a b : string) :
  blank b = true -> rstrip (a ++ b) = rstrip a.
Proof. intros H. apply blank_rstrip in H. now apply rstrip_blank_r. Qed.

Lemma blank_app (a b : string) : blank (a ++ b) = blank a && blank b.
Proof.
  destruct (blank b) eqn:Eb.
  - unfold blank at 1. rewrite (rstrip_app_blank _ _ Eb).
    now rewrite andb_true_r.
  - rewrite andb_false_r. apply blank_false_rstrip.
    rewrite (rstrip_app_nonblank _ _ Eb). apply blank_false_rstrip in Eb.
    intros H. apply append_eq_nil in H. tauto.
Qed.

Lemma rstrip_clean (s : string) : trailing_space s = false -> rstrip s = s.
Proof.
  unfold rstrip. induction s as [|c s IH]; [reflexivity|].
  destruct s as [|d s].
  - simpl. now intros ->.
  - intros H. change (trailing_space (String d s) = false) in H.
    change (rstrip_with isspace (String c (String d s))) with
      (match rstrip_with isspace (String d s) with
       | EmptyString => if isspace c then EmptyString else String c EmptyString
       | r => String c r end).
    now rewrite (IH H).
Qed.

(** The normalisation of the specification has one result, the one the
    code computes. *)
Lemma normalized_rstrip (text out : string) :
  normalized text out <-> out = rstrip text ++ nl.
Proof.
  split.
  - intros (kept & spaces & -> & Hb & Hk & ->).
    now rewrite (rstrip_app_blank _ _ Hb), (rstrip_clean _ Hk).
  - intros ->. destruct (rstrip_split isspace text) as [w [Ht Hw]].
    exists (rstrip text), w. repeat split.
    + exact Ht.
    + now apply blank_rstrip.
    + apply trailing_space_rstrip.
Qed.

(** *** [split] and [join] on newlines *)

Lemma split_nl_no_newline (s : string) :
  no_newline s = true -> split_nl s = [s].
Proof.
  induction s as [|c s IH]; simpl; [reflexivity|].
  intros H. apply andb_true_iff in H as [Hc Hs].
  apply negb_true_iff in Hc. rewrite Hc, (IH Hs). reflexivity.
Qed.

Lemma split_nl_app (a s : string) :
  no_newline a = true ->
  split_nl (a ++ s) =
  match split_nl s with
  | [] => [a]
  | piece :: pieces => (a ++ piece) :: pieces
  end.
Proof.
  induction a as [|c a IH]; simpl; intros H.
  - destruct s as [|d s]; [reflexivity|]. simpl.
    destruct (Ascii.eqb d NL); [reflexivity|]. now destruct (split_nl s).
  - apply andb_true_iff in H as [Hc Ha]. apply negb_true_iff in Hc.
    rewrite Hc, (IH Ha). now destruct (split_nl s).
Qed.

Lemma split_nl_other (c : ascii) (s : string) :
  Ascii.eqb c NL = false ->
  split_nl (String c s) =
  match split_nl s with
  | [] => [String c ""]
  | piece :: pieces => String c piece :: pieces
  end.
Proof. intros H. simpl. now rewrite H. Qed.

Lemma split_nl_cons (s : string) : exists piece pieces, split_nl s = piece :: pieces.
Proof.
  induction s as [|c s [p [ps IH]]]; simpl; [now eexists; eexists|].
  destruct (Ascii.eqb c NL); [now eexists; eexists|].
  rewrite IH. now eexists; eexists.
Qed.

Lemma split_nl_replace (indent text : string) :
  no_newline indent = true ->
  split_nl (replace_nl (nl ++ indent) text) =
  match split_nl text with
  | [] => []
  | piece :: pieces => piece :: map (append indent) pieces
  end.
Proof.
  intros Hi. induction text as [|c t IH]; [reflexivity|].
  change (replace_nl (nl ++ indent) (String c t)) with
    (if Ascii.eqb c NL
     then String NL (indent ++ replace_nl (nl ++ indent) t)
     else String c (replace_nl (nl ++ indent) t)).
  destruct (Ascii.eqb c NL) eqn:Ec.
  - change (split_nl (String NL (indent ++ replace_nl (nl ++ indent) t)))
      with ("" :: split_nl (indent ++ replace_nl (nl ++ indent) t)).
    rewrite (split_nl_app _ _ Hi), IH. simpl. rewrite Ec.
    now destruct (split_nl_cons t) as [p [ps ->]].
  - rewrite !(split_nl_other _ _ Ec), IH. now destruct (split_nl t).
Qed.

Lemma split_nl_indent (indent text : string) :
  no_newline indent = true ->
  split_nl (indent ++ replace_nl (nl ++ indent) text) =
  map (append indent) (split_nl text).
Proof.
  intros Hi. rewrite (split_nl_app _ _ Hi), (split_nl_replace _ _ Hi).
  destruct (split_nl_cons text) as [p [ps ->]]. reflexivity.
Qed.

Lemma split_nl_pieces (s : string) :
  Forall (fun piece => no_newline piece = true) (split_nl s).
Proof.
  induction s as [|c s IH]; simpl.
  - now repeat constructor.
  - destruct (Ascii.eqb c NL) eqn:Ec; [now constructor|].
    destruct (split_nl s) as [|p ps]; constructor; simpl; rewrite ?Ec;
      try constructor; inversion IH; subst; auto.
Qed.

Lemma no_newline_rstrip (s : string) :
  no_newline s = true -> no_newline (rstrip s) = true.
Proof.
  unfold rstrip. induction s as [|c s IH]; simpl; [auto|].
  intros H. apply andb_true_iff in H as [Hc Hs]. specialize (IH Hs).
  destruct (rstrip_with isspace s) as [|x r].
  - destruct (isspace c); simpl; [reflexivity|now rewrite Hc].
  - change (no_newline (String c (String x r)))
      with (negb (Ascii.eqb c NL) && no_newline (String x r)).
    now rewrite Hc, IH.
Qed.

Lemma split_nl_join (pieces : list string) :
  pieces <> [] -> Forall (fun piece => no_newline piece = true) pieces ->
  split_nl (join nl pieces) = pieces.
Proof.
  induction pieces as [|p ps IH]; intros Hne H; [congruence|].
  inversion H as [|? ? Hp Hps]; subst. destruct ps as [|q ps].
  - simpl. now apply split_nl_no_newline.
  - change (join nl (p :: q :: ps)) with (p ++ nl ++ join nl (q :: ps)).
    rewrite (split_nl_app _ _ Hp).
    change (split_nl (nl ++ join nl (q :: ps)))
      with ("" :: split_nl (join nl (q :: ps))).
    rewrite IH by (auto; congruence). now rewrite append_nil_r.
Qed.

(** The lines of the block [_indent] makes, from the lines of the text. *)
Lemma split_nl__indent (text indent : string) :
  no_newline indent = true ->
  split_nl (_indent text indent) =
  map (fun line => rstrip (indent ++ line)) (split_nl text).
Proof.
  intros Hi. unfold _indent. rewrite (split_nl_indent _ _ Hi), map_map.
  apply split_nl_join.
  - destruct (split_nl_cons text) as [p [ps ->]]. discriminate.
  - apply Forall_forall. intros x Hx. apply in_map_iff in Hx as [l [<- Hl]].
    apply no_newline_rstrip.
    pose proof (split_nl_pieces text) as Hf. rewrite Forall_forall in Hf.
    specialize (Hf _ Hl). simpl in Hf.
    clear - Hi Hf. induction indent as [|c i IH]; simpl in *; [exact Hf|].
    apply andb_true_iff in Hi as [Hc Hi]. rewrite Hc. simpl. auto.
Qed.

(** An indented line, right-trimmed: empty when the line is blank and the
    indentation is whitespace, and else indented with its own trailing
    whitespace gone. *)
Lemma rstrip_indented (indent line : string) :
  blank indent = true ->
  rstrip (indent ++ line) =
  if blank line then "" else indent ++ rstrip line.
Proof.
  intros Hi. destruct (blank line) eqn:El.
  - rewrite (rstrip_app_blank _ _ El). now apply blank_rstrip.
  - now apply rstrip_app_nonblank.
Qed.

(** ** The pass without jumps *)

Lemma ps1_next_nil (lineno : Z) : ps1_next [] lineno = NotPs1.
Proof. reflexivity. Qed.

Lemma locals_eta (st : locals) :
  st = mkLocals (startline st) (endline st) (explicit_flag st)
                (init_indent st) (skipto st).
Proof. now destruct st. Qed.

Lemma loop_plain (lines : list string) (lineno : Z) (st : locals) :
  skipto st = None ->
  loop [] lineno lines st = plain_pass lineno lines st.
Proof.
  revert lineno st. induction lines as [|line rest IH]; intros n st Hk.
  - unfold plain_pass. simpl. rewrite orb_false_r. rewrite <- Hk.
    apply locals_eta.
  - simpl loop. rewrite IH.
    + destruct st as [s e f i k]. simpl in Hk. subst k.
      unfold plain_pass, body, on_end_tag, on_start_tag, on_implicit_pattern.
      simpl.
      destruct f, (is_implicit line), (is_start_tag line) eqn:Es,
        (is_end_tag line) eqn:Ee; simpl;
        destruct (last_start _ rest), (last_end _ rest), (last_indent rest),
          (existsb is_start_tag rest);
        simpl; f_equal; lia.
    + destruct st as [s e f i k]. simpl in Hk. subst k.
      unfold body, on_end_tag, on_start_tag, on_implicit_pattern. simpl.
      now destruct f, (is_implicit line), (is_start_tag line),
        (is_end_tag line).
Qed.

Ltac body_cases line :=
  unfold body, on_end_tag, on_start_tag, on_implicit_pattern,
    set_startline, set_endline, set_skipto; simpl;
  destruct (is_implicit line), (is_start_tag line), (is_end_tag line); simpl.

Lemma body_agree_all (ps1_lines : list Z) (len lineno : Z) (line : string)
    (st st' : locals) :
  (if is_implicit line then
     match ps1_next ps1_lines lineno with
     | NextPs1 b => b =? lineno + 1
     | LastPs1 => lineno + 1 =? len
     | NotPs1 => true
     end
   else true) = true ->
  agree_all len lineno st st' ->
  agree_all len (lineno + 1) (body ps1_lines lineno line st)
            (body [] lineno line st').
Proof.
  intros Hj ((He & Hf & Hi & Hk' & Hk & Hs) & Hst & Hlen).
  destruct st as [s e f i k], st' as [s' e' f' i' k']. simpl in *. subst.
  assert (Hn : (lineno =? lineno) = true) by apply Z.eqb_refl.
  unfold agree_all, agree_tags.
  destruct Hk as [-> | ->]; body_cases line; rewrite ?Hn; simpl;
    destruct f'; simpl;
    try (destruct (ps1_next ps1_lines lineno) as [| |b] eqn:En; simpl;
         try (apply Z.eqb_eq in Hj; try subst b));
    try (specialize (Hlen eq_refl));
    repeat split; auto; try discriminate; try (intros _; auto); try lia.
Qed.

Lemma loop_agree_all (ps1_lines : list Z) (len : Z) (lines : list string)
    (lineno : Z) (st st' : locals) :
  by_line ps1_lines len lineno lines = true ->
  agree_all len lineno st st' ->
  agree_all len (lineno + Z.of_nat (List.length lines))
            (loop ps1_lines lineno lines st) (loop [] lineno lines st').
Proof.
  revert lineno st st'. induction lines as [|line rest IH]; intros n st st' Hj H.
  - simpl. now rewrite Z.add_0_r.
  - simpl by_line in Hj. apply andb_true_iff in Hj as [Hj Hr].
    simpl loop. replace (n + Z.of_nat (List.length (line :: rest)))
      with (n + 1 + Z.of_nat (List.length rest)) by (simpl List.length; lia).
    apply IH; [exact Hr|]. now apply body_agree_all.
Qed.

(** ** The tags and the patterns *)

Lemma prefix_cons (a : ascii) (p s : string) :
  String.prefix (String a p) s = true ->
  exists r, s = String a r /\ String.prefix p r = true.
Proof.
  destruct s as [|b r]; simpl; [discriminate|].
  destruct (ascii_dec a b) as [->|]; [|discriminate]. intros H. now exists r.
Qed.

(** A line is not both a start tag and an end tag. *)
Lemma end_tag_not_start_tag (line : string) :
  is_end_tag line = true -> is_start_tag line = false.
Proof.
  unfold is_end_tag, is_start_tag, startswith, end_tag, start_tag.
  intros H.
  apply prefix_cons in H as [r1 [-> H]]. apply prefix_cons in H as [r2 [-> H]].
  apply prefix_cons in H as [r3 [-> H]]. apply prefix_cons in H as [r4 [-> H]].
  reflexivity.
Qed.

(** The tags begin with the comment character, an implicit pattern. *)
Lemma start_tag_implicit (line : string) :
  is_start_tag line = true -> is_implicit line = true.
Proof.
  unfold is_start_tag, is_implicit, startswith, start_tag.
  intros H. apply prefix_cons in H as [r [-> _]].
  unfold startswith_any, implicit_patterns. simpl.
  destruct r; rewrite ?orb_true_r; reflexivity.
Qed.

Lemma end_tag_implicit (line : string) :
  is_end_tag line = true -> is_implicit line = true.
Proof.
  unfold is_end_tag, is_implicit, startswith, end_tag.
  intros H. apply prefix_cons in H as [r [-> _]].
  unfold startswith_any, implicit_patterns. simpl.
  destruct r; rewrite ?orb_true_r; reflexivity.
Qed.

Lemma existsb_none_implicit (lines : list string) :
  existsb is_implicit lines = false ->
  existsb is_start_tag lines = false /\ existsb is_end_tag lines = false.
Proof.
  induction lines as [|l ls IH]; simpl; [auto|].
  intros H. apply orb_false_iff in H as [Hl Hls].
  destruct (IH Hls) as [-> ->].
  destruct (is_start_tag l) eqn:Es;
    [apply start_tag_implicit in Es; congruence|].
  destruct (is_end_tag l) eqn:Ee;
    [apply end_tag_implicit in Ee; congruence|]. auto.
Qed.

(** *** The closed form on a concatenation *)

Lemma last_start_app (explicit : bool) (A B : list string) :
  last_start explicit (A ++ B) =
  match last_start (explicit || existsb is_start_tag A) B with
  | Some k => Some (List.length A + k)%nat
  | None => last_start explicit A
  end.
Proof.
  revert explicit. induction A as [|a A IH]; intros f; simpl.
  - rewrite orb_false_r. now destruct (last_start f B).
  - rewrite IH, orb_assoc.
    now destruct (last_start (f || is_start_tag a || existsb is_start_tag A) B).
Qed.

Lemma last_end_app (explicit : bool) (A B : list string) :
  last_end explicit (A ++ B) =
  match last_end (explicit || existsb is_start_tag A) B with
  | Some k => Some (List.length A + k)%nat
  | None => last_end explicit A
  end.
Proof.
  revert explicit. induction A as [|a A IH]; intros f; simpl.
  - rewrite orb_false_r. now destruct (last_end f B).
  - rewrite IH, orb_assoc.
    now destruct (last_end (f || is_start_tag a || existsb is_start_tag A) B).
Qed.

Lemma last_indent_app (A B : list string) :
  last_indent (A ++ B) =
  match last_indent B with
  | Some indent => Some indent
  | None => last_indent A
  end.
Proof.
  induction A as [|a A IH]; simpl.
  - now destruct (last_indent B).
  - rewrite IH. now destruct (last_indent B).
Qed.

Lemma last_indent_none (lines : list string) :
  existsb is_start_tag lines = false -> last_indent lines = None.
Proof.
  induction lines as [|l ls IH]; simpl; [auto|].
  intros H. apply orb_false_iff in H as [Hl Hls]. now rewrite IH, Hl.
Qed.

Lemma last_start_explicit_none (lines : list string) :
  existsb is_start_tag lines = false -> last_start true lines = None.
Proof.
  induction lines as [|l ls IH]; simpl; [auto|].
  intros H. apply orb_false_iff in H as [Hl Hls]. now rewrite IH, Hl.
Qed.

Lemma last_start_none (explicit : bool) (lines : list string) :
  existsb is_implicit lines = false -> last_start explicit lines = None.
Proof.
  revert explicit. induction lines as [|l ls IH]; intros f; simpl; [auto|].
  intros H. apply orb_false_iff in H as [Hl Hls]. rewrite IH by exact Hls.
  destruct (is_start_tag l) eqn:Es;
    [apply start_tag_implicit in Es; congruence|].
  now rewrite Hl, andb_false_r.
Qed.

Lemma last_end_none (explicit : bool) (lines : list string) :
  existsb is_end_tag lines = false -> last_end explicit lines = None.
Proof.
  revert explicit. induction lines as [|l ls IH]; intros f; simpl; [auto|].
  intros H. apply orb_false_iff in H as [Hl Hls]. rewrite IH by exact Hls.
  now rewrite Hl, andb_false_r.
Qed.



(** ** The pass and the lines it evaluates *)

Lemma start_tag_not_end_tag (line : string) :
  is_start_tag line = true -> is_end_tag line = false.
Proof.
  intros H. destruct (is_end_tag line) eqn:E; [|reflexivity].
  apply end_tag_not_start_tag in E. congruence.
Qed.

Lemma body_no_pattern (ps1_lines : list Z) (lineno : Z) (line : string)
    (st : locals) :
  is_implicit line = false -> skipto st = None ->
  body ps1_lines lineno line st = st.
Proof.
  intros Hi Hk. destruct st as [s e f i k]. simpl in Hk. subst k.
  assert (Hs : is_start_tag line = false).
  { destruct (is_start_tag line) eqn:E; [|reflexivity].
    apply start_tag_implicit in E. congruence. }
  assert (He : is_end_tag line = false).
  { destruct (is_end_tag line) eqn:E; [|reflexivity].
    apply end_tag_implicit in E. congruence. }
  unfold body, on_end_tag, on_start_tag, on_implicit_pattern. simpl.
  rewrite Hi, Hs, He, !andb_false_r. reflexivity.
Qed.

Lemma loop_no_pattern (ps1_lines : list Z) (lines : list string) (lineno : Z)
    (st : locals) :
  existsb is_implicit lines = false -> skipto st = None ->
  loop ps1_lines lineno lines st = st.
Proof.
  revert lineno st. induction lines as [|line rest IH]; intros n st H Hk;
    [reflexivity|].
  simpl in H. apply orb_false_iff in H as [Hl Hr]. simpl.
  rewrite (body_no_pattern _ _ _ _ Hl Hk). now apply IH.
Qed.

Lemma body_skipped (ps1_lines : list Z) (lineno : Z) (line : string)
    (st : locals) :
  skipped lineno st = true -> body ps1_lines lineno line st = st.
Proof.
  unfold skipped, body. destruct (skipto st) as [t|]; [|discriminate].
  now intros ->.
Qed.

Lemma body_seen (ps1_lines : list Z) (lineno : Z) (line : string)
    (st st' : locals) :
  agree_explicit st st' ->
  agree_explicit (body ps1_lines lineno line st)
    (body [] lineno (if skipped lineno st then "" else line) st').
Proof.
  intros (He & Hf & Hi & Hk' & Hs).
  destruct (skipped lineno st) eqn:Esk.
  - rewrite (body_skipped _ _ _ _ Esk).
    rewrite body_no_pattern by (reflexivity || exact Hk').
    repeat split; auto.
  - destruct st as [s e f i k], st' as [s' e' f' i' k'].
    unfold skipped in Esk. simpl in *. subst.
    unfold agree_explicit.
    destruct k as [t|].
    + apply negb_false_iff in Esk.
      body_cases line; rewrite ?Esk; simpl; destruct f'; simpl;
        try (destruct (ps1_next ps1_lines lineno) as [| |b]; simpl);
        repeat split; auto; try discriminate; try (intros _; auto).
    + body_cases line; destruct f'; simpl;
        try (destruct (ps1_next ps1_lines lineno) as [| |b]; simpl);
        repeat split; auto; try discriminate; try (intros _; auto).
Qed.

Lemma loop_seen (ps1_lines : list Z) (lines : list string) (lineno : Z)
    (st st' : locals) :
  agree_explicit st st' ->
  agree_explicit (loop ps1_lines lineno lines st)
    (loop [] lineno (seen_from ps1_lines lineno lines st) st').
Proof.
  revert lineno st st'. induction lines as [|line rest IH]; intros n st st' H.
  - exact H.
  - cbn [loop seen_from]. apply IH. now apply body_seen.
Qed.

Lemma length_seen_from (ps1_lines : list Z) (lines : list string)
    (lineno : Z) (st : locals) :
  List.length (seen_from ps1_lines lineno lines st) = List.length lines.
Proof.
  revert lineno st. induction lines as [|line rest IH]; intros n st;
    [reflexivity|].
  cbn [seen_from List.length]. now rewrite IH.
Qed.

Lemma seen_from_masks (ps1_lines : list Z) (lines : list string)
    (lineno : Z) (st : locals) :
  Forall2 masks (seen_from ps1_lines lineno lines st) lines.
Proof.
  revert lineno st. induction lines as [|line rest IH]; intros n st;
    [constructor|].
  cbn [seen_from]. constructor; [|apply IH].
  unfold masks. destruct (skipped n st); auto.
Qed.

Lemma masks_none (f : string -> bool) (V lines : list string) :
  f "" = false -> Forall2 masks V lines ->
  existsb f lines = false -> existsb f V = false.
Proof.
  intros H0 H. induction H as [|v l V' ls [-> | ->] _ IH]; [reflexivity| |];
    simpl; intros E; apply orb_false_iff in E as [El Els];
    rewrite ?El, ?H0; now apply IH.
Qed.

Lemma seen_from_app (ps1_lines : list Z) (A B : list string) (lineno : Z)
    (st : locals) :
  seen_from ps1_lines lineno (A ++ B) st
  = (seen_from ps1_lines lineno A st
       ++ seen_from ps1_lines (lineno + Z.of_nat (List.length A)) B
            (loop ps1_lines lineno A st))%list.
Proof.
  revert lineno st. induction A as [|a A IH]; intros n st.
  - simpl. now rewrite Z.add_0_r.
  - cbn [app seen_from loop List.length]. rewrite IH.
    replace (n + 1 + Z.of_nat (List.length A))
      with (n + Z.of_nat (S (List.length A))) by lia.
    reflexivity.
Qed.

Lemma evaluated_from_app (ps1_lines : list Z) (A B : list string)
    (lineno : Z) (st : locals) (k : nat) :
  evaluated_from ps1_lines lineno (A ++ B) st (List.length A + k)
  = evaluated_from ps1_lines (lineno + Z.of_nat (List.length A)) B
      (loop ps1_lines lineno A st) k.
Proof.
  revert lineno st. induction A as [|a A IH]; intros n st.
  - simpl. now rewrite Z.add_0_r.
  - cbn [app evaluated_from loop List.length Nat.add]. rewrite IH.
    replace (n + 1 + Z.of_nat (List.length A))
      with (n + Z.of_nat (S (List.length A))) by lia.
    reflexivity.
Qed.

(** An evaluated line [l] after the lines [A]: the pass takes it as it is,
    and goes on after it. *)
Lemma seen_from_at (ps1_lines : list Z) (A B : list string) (l : string)
    (lineno : Z) (st : locals) :
  evaluated_from ps1_lines lineno (A ++ l :: B) st (List.length A) = true ->
  exists A',
    Forall2 masks A' A
    /\ seen_from ps1_lines lineno (A ++ l :: B) st
       = (A' ++ l
            :: seen_from ps1_lines (lineno + Z.of_nat (List.length A) + 1) B
                 (loop ps1_lines lineno (A ++ [l]) st))%list
    /\ forall k,
         evaluated_from ps1_lines lineno (A ++ l :: B) st
           (List.length A + S k)
         = evaluated_from ps1_lines
             (lineno + Z.of_nat (List.length A) + 1) B
             (loop ps1_lines lineno (A ++ [l]) st) k.
Proof.
  intros H. exists (seen_from ps1_lines lineno A st).
  split; [apply seen_from_masks|].
  assert (Hl : loop ps1_lines lineno (A ++ [l]) st
               = body ps1_lines (lineno + Z.of_nat (List.length A)) l
                   (loop ps1_lines lineno A st)).
  { clear H. revert lineno st. induction A as [|a A IH]; intros n st.
    - simpl. now rewrite Z.add_0_r.
    - cbn [app loop List.length]. rewrite IH.
      replace (n + 1 + Z.of_nat (List.length A))
        with (n + Z.of_nat (S (List.length A))) by lia.
      reflexivity. }
  rewrite <- (Nat.add_0_r (List.length A)) in H.
  rewrite evaluated_from_app in H. cbn [evaluated_from] in H.
  apply negb_true_iff in H.
  split.
  - rewrite seen_from_app. cbn [seen_from]. now rewrite H, Hl.
  - intros k. rewrite evaluated_from_app. cbn [evaluated_from].
    now rewrite Hl.
Qed.





Lemma loop_no_start_tag (ps1_lines : list Z) (lines : list string)
    (lineno : Z) (st : locals) :
  existsb is_start_tag lines = false -> explicit_flag st = false ->
  explicit_flag (loop ps1_lines lineno lines st) = false
  /\ endline (loop ps1_lines lineno lines st) = endline st
  /\ init_indent (loop ps1_lines lineno lines st) = init_indent st.
Proof.
  revert lineno st. induction lines as [|line rest IH]; intros n st H Hf;
    [auto|].
  simpl in H. apply orb_false_iff in H as [Hl Hr]. simpl.
  assert (Hb : explicit_flag (body ps1_lines n line st) = false
               /\ endline (body ps1_lines n line st) = endline st
               /\ init_indent (body ps1_lines n line st) = init_indent st).
  { destruct st as [s e f i k]. simpl in Hf. subst f.
    unfold body, on_end_tag, on_start_tag, on_implicit_pattern,
      set_startline, set_endline, set_skipto. simpl.
    destruct k as [t|]; [destruct (negb (n =? t))|]; simpl; rewrite ?Hl;
      auto;
      destruct (is_implicit line); simpl;
      try destruct (ps1_next ps1_lines n); simpl; auto. }
  destruct Hb as (Hb1 & Hb2 & Hb3).
  destruct (IH (n + 1) _ Hr Hb1) as (I1 & I2 & I3).
  rewrite I1, I2, I3. auto.
Qed.


(** ** The locator through the closed form *)

Lemma agree_tags_initial (lines : list string) :
  agree_tags 0 (initial lines) (initial lines).
Proof. unfold agree_tags, initial; simpl. intuition discriminate. Qed.

Lemma agree_all_initial (lines : list string) :
  agree_all (Z.of_nat (List.length lines)) 0 (initial lines) (initial lines).
Proof.
  split; [apply agree_tags_initial|]. unfold initial; simpl. auto.
Qed.

Section Pass.

Variable scanner : list string -> scan.

(** In any file, when every statement that matches an implicit pattern is
    a line of its own, the locator returns what the closed form gives. *)
Lemma find_insert_points_by_line (lines : list string) (ps1_lines : list Z) :
  ps1_lines_of scanner lines = Return ps1_lines ->
  by_line ps1_lines (Z.of_nat (List.length lines)) 0 lines = true ->
  _find_insert_points scanner lines
  = finish (plain_pass 0 lines (initial lines)).
Proof.
  intros Hps Hj. unfold _find_insert_points. rewrite Hps.
  pose proof (loop_agree_all ps1_lines _ lines 0 _ _ Hj
                (agree_all_initial lines))
    as ((He & Hf & Hi & _ & _ & _) & Hs & _).
  rewrite loop_plain in He, Hf, Hi, Hs by reflexivity.
  unfold finish. now rewrite Hs, He, Hi.
Qed.

(** The closed form on a file with a last start tag [o] and, after it, a
    last end tag [c]. *)
Lemma plain_pass_pair (pre mid post : list string) (o c : string) :
  is_start_tag o = true ->
  existsb is_start_tag mid = false ->
  is_end_tag c = true ->
  existsb is_start_tag post = false ->
  existsb is_end_tag post = false ->
  finish (plain_pass 0 (pre ++ o :: mid ++ c :: post)
            (initial (pre ++ o :: mid ++ c :: post)))
  = Return (Z.of_nat (List.length pre) + 1,
            Z.of_nat (List.length pre) + 1 + Z.of_nat (List.length mid),
            str_upto (find "#"%char o) o).
Proof.
  intros Ho Hmid Hc Hpost1 Hpost2.
  pose proof (end_tag_not_start_tag _ Hc) as Hc'.
  assert (Hrest : existsb is_start_tag (mid ++ c :: post) = false).
  { rewrite existsb_app. simpl. now rewrite Hmid, Hc', Hpost1. }
  unfold finish, plain_pass, initial. cbn [startline endline init_indent explicit_flag].
  rewrite last_start_app, last_end_app, last_indent_app.
  cbn [last_start last_end last_indent]. rewrite Ho, !orb_true_r.
  rewrite (last_start_explicit_none _ Hrest), (last_indent_none _ Hrest).
  rewrite last_end_app. cbn [last_end]. rewrite orb_true_l.
  rewrite (last_end_none _ _ Hpost2), Hc. cbn [orb andb].
  match goal with |- (if ?a <=? ?b then _ else _) = _ =>
    destruct (Z.leb_spec a b) as [_|Hlt]; [|lia] end.
  f_equal. f_equal. f_equal; lia.
Qed.

(** The locator returns what the closed form gives on the lines as the
    pass takes them, when it takes a start tag. *)
Lemma find_insert_points_seen (lines : list string) (ps1_lines : list Z) :
  ps1_lines_of scanner lines = Return ps1_lines ->
  existsb is_start_tag (seen ps1_lines lines) = true ->
  _find_insert_points scanner lines
  = finish (plain_pass 0 (seen ps1_lines lines) (initial lines)).
Proof.
  intros Hps Ht. unfold _find_insert_points. rewrite Hps.
  assert (H0 : agree_explicit (initial lines) (initial lines))
    by (unfold agree_explicit, initial; simpl; auto).
  pose proof (loop_seen ps1_lines lines 0 _ _ H0) as (He & Hf & Hi & _ & Hs).
  fold (seen ps1_lines lines) in He, Hf, Hi, Hs.
  rewrite loop_plain in He, Hf, Hi, Hs by reflexivity.
  assert (Hx : explicit_flag
                 (plain_pass 0 (seen ps1_lines lines) (initial lines)) = true).
  { unfold plain_pass; simpl. exact Ht. }
  rewrite Hx in Hf. specialize (Hs Hf).
  unfold finish. now rewrite Hs, He, Hi.
Qed.

Lemma initial_seen (lines : list string) (ps1_lines : list Z) :
  initial (seen ps1_lines lines) = initial lines.
Proof. unfold initial, seen. now rewrite length_seen_from. Qed.


(** A last start tag [o] and, after it, a last end tag [c], both
    evaluated. *)
Lemma find_insert_points_pair (pre mid post : list string) (o c : string)
    (ps1_lines : list Z) :
  ps1_lines_of scanner (pre ++ o :: mid ++ c :: post) = Return ps1_lines ->
  evaluated ps1_lines (pre ++ o :: mid ++ c :: post) (List.length pre)
  = true ->
  evaluated ps1_lines (pre ++ o :: mid ++ c :: post)
    (List.length (pre ++ o :: mid)) = true ->
  is_start_tag o = true ->
  existsb is_start_tag mid = false ->
  is_end_tag c = true ->
  existsb is_start_tag post = false ->
  existsb is_end_tag post = false ->
  _find_insert_points scanner (pre ++ o :: mid ++ c :: post)
  = Return (Z.of_nat (List.length pre) + 1,
            Z.of_nat (List.length pre) + 1 + Z.of_nat (List.length mid),
            str_upto (find "#"%char o) o).
Proof.
  intros Hps Eo Ec Ho Hmid Hc Hp1 Hp2.
  unfold evaluated in Eo, Ec.
  destruct (seen_from_at _ _ _ _ _ _ Eo) as (pre' & Mpre & Hseen & Hnext).
  rewrite length_app in Ec. cbn [List.length] in Ec.
  rewrite Hnext in Ec.
  destruct (seen_from_at _ _ _ _ _ _ Ec) as (mid' & Mmid & Hseen' & _).
  rewrite Hseen' in Hseen.
  set (post' := seen_from _ _ post _) in Hseen.
  assert (Mpost : Forall2 masks post' post) by apply seen_from_masks.
  fold (seen ps1_lines (pre ++ o :: mid ++ c :: post)) in Hseen.
  assert (Hlp : List.length pre' = List.length pre)
    by exact (Forall2_length Mpre).
  assert (Hlm : List.length mid' = List.length mid)
    by exact (Forall2_length Mmid).
  rewrite (find_insert_points_seen _ _ Hps);
    [|rewrite Hseen, existsb_app; simpl; now rewrite Ho, orb_true_r].
  rewrite <- initial_seen with (ps1_lines := ps1_lines). rewrite Hseen.
  rewrite plain_pass_pair; auto.
  - now rewrite Hlp, Hlm.
  - exact (masks_none _ _ _ eq_refl Mmid Hmid).
  - exact (masks_none _ _ _ eq_refl Mpost Hp1).
  - exact (masks_none _ _ _ eq_refl Mpost Hp2).
Qed.

(** An evaluated start tag [o] that is the last start tag: the pass takes
    it, and no start tag after it. *)
Lemma seen_at (pre post : list string) (o : string) (ps1_lines : list Z) :
  evaluated ps1_lines (pre ++ o :: post) (List.length pre) = true ->
  existsb is_start_tag post = false ->
  exists pre' post',
    seen ps1_lines (pre ++ o :: post) = (pre' ++ o :: post')%list
    /\ List.length pre' = List.length pre
    /\ existsb is_start_tag post' = false.
Proof.
  intros Eo Hpost. unfold evaluated in Eo.
  destruct (seen_from_at _ _ _ _ _ _ Eo) as (pre' & Mpre & Hseen & _).
  exists pre'. eexists. split; [exact Hseen|].
  split; [exact (Forall2_length Mpre)|].
  exact (masks_none _ _ _ eq_refl (seen_from_masks _ _ _ _) Hpost).
Qed.

End Pass.

(** ** The captured indentation *)

Lemma blank_cons (c : ascii) (s : string) :
  blank (String c s) = isspace c && blank s.
Proof.
  unfold blank, rstrip. simpl.
  destruct (rstrip_with isspace s), (isspace c); reflexivity.
Qed.

Lemma find_app_hash (u x w : string) :
  blank u = true ->
  find "#"%char ((u ++ String "#"%char x) ++ w) = Z.of_nat (String.length u).
Proof.
  induction u as [|c u IH]; intros Hu.
  - reflexivity.
  - rewrite blank_cons in Hu. apply andb_true_iff in Hu as [Hc Hu].
    specialize (IH Hu).
    change (find "#"%char ((String c u ++ String "#"%char x) ++ w)) with
      (if Ascii.eqb c "#"%char then 0
       else let r := find "#"%char ((u ++ String "#"%char x) ++ w) in
            if r <? 0 then -1 else r + 1).
    destruct (Ascii.eqb c "#"%char) eqn:Ec.
    + apply Ascii.eqb_eq in Ec. subst c. discriminate.
    + rewrite IH. cbv zeta.
      destruct (Z.ltb_spec (Z.of_nat (String.length u)) 0); [lia|].
      simpl String.length. lia.
Qed.

Lemma str_upto_app (u x : string) :
  str_upto (Z.of_nat (String.length u)) (u ++ x) = u.
Proof.
  unfold str_upto, slice_bound.
  assert (Hl : String.length (u ++ x) = (String.length u + String.length x)%nat).
  { clear. induction u; simpl; auto. }
  rewrite Hl.
  destruct (Z.ltb_spec (Z.of_nat (String.length u)) 0); [lia|].
  replace (Z.to_nat _) with (String.length u) by lia.
  clear. induction u as [|c u IH]; simpl.
  - now destruct x.
  - now rewrite IH.
Qed.

Lemma lstrip_hash (s q : string) :
  lstrip s = String "#"%char q ->
  exists u, s = u ++ String "#"%char q /\ blank u = true.
Proof.
  unfold lstrip. induction s as [|c s IH]; simpl; [discriminate|].
  destruct (isspace c) eqn:Ec.
  - intros H. destruct (IH H) as [u [-> Hu]].
    exists (String c u). split; [reflexivity|].
    now rewrite blank_cons, Ec, Hu.
  - intros [= -> ->]. now exists "".
Qed.

(** The indentation a start tag gives is the whitespace before its
    comment character. *)
Lemma start_tag_indent (line : string) :
  is_start_tag line = true ->
  exists u x,
    line = u ++ String "#"%char x /\ blank u = true /\
    str_upto (find "#"%char line) line = u.
Proof.
  unfold is_start_tag, startswith, start_tag, strip. intros H.
  apply prefix_cons in H as [q [Hq _]].
  apply lstrip_hash in Hq as [u [Hr Hu]].
  destruct (rstrip_split isspace line) as [w [Hl _]].
  fold rstrip in Hl. rewrite Hr in Hl.
  exists u, (q ++ w). assert (Hline : line = u ++ String "#"%char (q ++ w)).
  { rewrite Hl. now rewrite append_assoc. }
  repeat split; auto.
  rewrite Hline at 1.
  pose proof (find_app_hash u (q ++ w) "" Hu) as Hf.
  rewrite append_nil_r in Hf. rewrite Hf, Hline. apply str_upto_app.
Qed.


Lemma start_tag_indent_no_newline (line : string) :
  is_line line = true -> is_start_tag line = true ->
  no_newline (str_upto (find "#"%char line) line) = true.
Proof.
  intros Hl H. destruct (start_tag_indent _ H) as (u & x & Hline & _ & ->).
  subst line. clear H. induction u as [|c u IH]; [reflexivity|].
  change (is_line (String c (u ++ String "#"%char x)) = true) in Hl.
  simpl in Hl. destruct (u ++ String "#"%char x) eqn:E.
  - destruct u; discriminate.
  - apply andb_true_iff in Hl as [Hc Hl]. simpl. rewrite Hc. simpl.
    now apply IH.
Qed.

(** What holds of the empty indentation and of the indentation of every
    start tag holds of the captured one. *)
Lemma loop_indent (P : string -> Prop) (ps1_lines : list Z)
    (lines : list string) (lineno : Z) (st : locals) :
  P (init_indent st) ->
  (forall line, In line lines -> is_start_tag line = true ->
                P (str_upto (find "#"%char line) line)) ->
  P (init_indent (loop ps1_lines lineno lines st)).
Proof.
  revert lineno st. induction lines as [|line rest IH]; intros n st H0 Hl.
  - exact H0.
  - simpl. apply IH; [|intros; apply Hl; simpl; auto].
    assert (Hline := Hl line (or_introl eq_refl)).
    destruct st as [s e f i k]. simpl in H0.
    unfold body, on_end_tag, on_start_tag, on_implicit_pattern,
      set_startline, set_endline, set_skipto. simpl.
    destruct k as [t|]; [destruct (negb (n =? t)); [exact H0|]|];
      simpl;
      destruct f, (is_implicit line), (is_start_tag line), (is_end_tag line);
      simpl; try destruct (ps1_next ps1_lines n); simpl; auto.
Qed.

(** ** Slices and joins *)

Lemma join_cons (x : string) (xs : list string) :
  join "" (x :: xs) = x ++ join "" xs.
Proof.
  unfold join. destruct xs; simpl; [now rewrite append_nil_r|reflexivity].
Qed.

Lemma join_app (xs ys : list string) :
  join "" (xs ++ ys) = join "" xs ++ join "" ys.
Proof.
  induction xs as [|x xs IH]; [reflexivity|].
  change ((x :: xs) ++ ys)%list with (x :: (xs ++ ys))%list.
  now rewrite !join_cons, IH, append_assoc.
Qed.

Lemma slice_bound_within (k len : Z) :
  0 <= k <= len -> slice_bound k len = Z.to_nat k.
Proof.
  intros H. unfold slice_bound.
  destruct (Z.ltb_spec k 0); [lia|]. f_equal. lia.
Qed.

Lemma upto_app {A : Type} (xs ys : list A) :
  upto (Z.of_nat (List.length xs)) (xs ++ ys) = xs.
Proof.
  unfold upto. rewrite slice_bound_within by (rewrite length_app; lia).
  rewrite Nat2Z.id. rewrite firstn_app, Nat.sub_diag, firstn_all. simpl.
  apply app_nil_r.
Qed.

Lemma from_app {A : Type} (xs ys : list A) :
  from (Z.of_nat (List.length xs)) (xs ++ ys) = ys.
Proof.
  unfold from. rewrite slice_bound_within by (rewrite length_app; lia).
  rewrite Nat2Z.id. rewrite skipn_app, Nat.sub_diag, skipn_all. reflexivity.
Qed.

Lemma upto_all {A : Type} (xs : list A) :
  upto (Z.of_nat (List.length xs)) xs = xs.
Proof. rewrite <- (app_nil_r xs) at 2. apply upto_app. Qed.

Lemma from_all {A : Type} (xs : list A) :
  from (Z.of_nat (List.length xs)) xs = [].
Proof. rewrite <- (app_nil_r xs) at 2. apply from_app. Qed.

(** A line with a tag is not blank. *)
Lemma implicit_not_blank (line : string) :
  is_implicit line = true -> blank line = false.
Proof.
  unfold is_implicit, strip, blank. destruct (rstrip line); [|reflexivity].
  discriminate.
Qed.

Lemma upto_pair {A : Type} (pre rest : list A) (o : A) :
  upto (Z.of_nat (List.length pre) + 1) (pre ++ o :: rest) = (pre ++ [o])%list.
Proof.
  replace (Z.of_nat (List.length pre) + 1)
    with (Z.of_nat (List.length (pre ++ [o]))) by (rewrite length_app; simpl; lia).
  replace (pre ++ o :: rest)%list with ((pre ++ [o]) ++ rest)%list
    by (now rewrite <- app_assoc).
  apply upto_app.
Qed.

Lemma from_pair {A : Type} (pre mid tail : list A) (o : A) :
  from (Z.of_nat (List.length pre) + 1 + Z.of_nat (List.length mid))
       (pre ++ o :: mid ++ tail) = tail.
Proof.
  replace (Z.of_nat (List.length pre) + 1 + Z.of_nat (List.length mid))
    with (Z.of_nat (List.length (pre ++ o :: mid)))
    by (rewrite length_app; simpl; lia).
  replace (pre ++ o :: mid ++ tail)%list with ((pre ++ o :: mid) ++ tail)%list
    by (now rewrite <- app_assoc).
  apply from_app.
Qed.

(** ** Reading lines *)

Lemma readlines_nl (s : string) : readlines (String NL s) = nl :: readlines s.
Proof. reflexivity. Qed.

Lemma readlines_other (c : ascii) (s : string) :
  Ascii.eqb c NL = false ->
  readlines (String c s) =
  match readlines s with
  | [] => [String c ""]
  | line :: lines => String c line :: lines
  end.
Proof. intros H. simpl. now rewrite H. Qed.

Lemma join_readlines (text : string) : join "" (readlines text) = text.
Proof.
  induction text as [|c t IH]; [reflexivity|].
  destruct (Ascii.eqb c NL) eqn:Ec.
  - apply Ascii.eqb_eq in Ec. subst c.
    rewrite readlines_nl, join_cons, IH. reflexivity.
  - rewrite (readlines_other _ _ Ec).
    destruct (readlines t) as [|l ls] eqn:E.
    + simpl in IH. subst t. reflexivity.
    + rewrite join_cons in *. simpl. now rewrite IH.
Qed.

Lemma readlines_nil (text : string) : readlines text = [] -> text = "".
Proof. intros H. rewrite <- (join_readlines text), H. reflexivity. Qed.






Lemma blank_join (lines : list string) :
  blank (join "" lines) = forallb blank lines.
Proof.
  induction lines as [|l ls IH]; [reflexivity|].
  now rewrite join_cons, blank_app, IH.
Qed.

Lemma file_lines_cons (line : string) (rest : list string) :
  file_lines (line :: rest) = true ->
  is_line line = true /\ file_lines rest = true /\
  (rest <> [] -> ends_nl line = true).
Proof.
  destruct rest as [|l2 rest].
  - simpl. intros H. repeat split; auto; congruence.
  - change (file_lines (line :: l2 :: rest))
      with (is_line line && ends_nl line && file_lines (l2 :: rest)).
    intros H. apply andb_true_iff in H as [H H3].
    apply andb_true_iff in H as [H1 H2]. auto.
Qed.



Lemma is_line_nonempty (s : string) : is_line s = true -> s <> "".
Proof. destruct s; [discriminate|congruence]. Qed.

(** What [readlines] gives is a list of lines of a file. *)
Lemma file_lines_readlines (text : string) :
  file_lines (readlines text) = true.
Proof.
  induction text as [|c t IH]; [reflexivity|].
  destruct (Ascii.eqb c NL) eqn:Ec.
  - apply Ascii.eqb_eq in Ec. subst c. rewrite readlines_nl.
    destruct (readlines t) eqn:E; [reflexivity|].
    change (is_line nl && ends_nl nl && file_lines (s :: l) = true).
    now rewrite IH.
  - rewrite (readlines_other _ _ Ec).
    destruct (readlines t) as [|l ls] eqn:E; [reflexivity|].
    apply file_lines_cons in IH as (Hl & Hls & Hnl).
    assert (Hc : is_line (String c l) = true).
    { destruct l; [discriminate|].
      change (negb (Ascii.eqb c NL) && is_line (String a l) = true).
      now rewrite Ec, Hl. }
    destruct ls as [|l2 ls]; [exact Hc|].
    change (is_line (String c l) && ends_nl (String c l)
            && file_lines (l2 :: ls) = true).
    rewrite Hc, Hls, andb_true_r. simpl.
    destruct l; [discriminate|]. apply Hnl. discriminate.
Qed.

(** *** The lines of the text that was written *)






(** ** The tests on a line that was written and read again *)









(** *** The closed form on the lines read again *)

Section Reread.

Variable T : list string.
Hypothesis T_file : file_lines T = true.






End Reread.

(** ** The lines of the generated block *)



Section Block.

Variables initstr indent : string.
Hypothesis indent_blank : blank indent = true.
Hypothesis indent_no_newline : no_newline indent = true.





End Block.

(** ** The locator on the lines of a merged text *)






Lemma upto_firstn {A : Type} (k : Z) (l : list A) :
  0 <= k <= Z.of_nat (List.length l) -> upto k l = firstn (Z.to_nat k) l.
Proof. intros H. unfold upto. now rewrite slice_bound_within. Qed.


Lemma join_splice (K T : list string) (block : string) :
  join "" (K ++ [block] ++ T) = join "" K ++ block ++ join "" T.
Proof.
  rewrite join_app. change ([block] ++ T)%list with (block :: T).
  now rewrite join_cons.
Qed.

(** ** The jump over a statement of several lines *)

Lemma index_In (x : Z) (l : list Z) (i : nat) : index x l = Some i -> In x l.
Proof. intros H. apply index_nth_error in H. eapply nth_error_In; eauto. Qed.

(** In increasing boundaries, the next boundary is the least one after the
    line. *)
Lemma ps1_next_sorted (ps1_lines : list Z) (lineno b : Z) :
  StronglySorted Z.lt ps1_lines ->
  ps1_next ps1_lines lineno = NextPs1 b ->
  lineno < b /\ forall p, In p ps1_lines -> lineno < p -> b <= p.
Proof.
  unfold ps1_next. induction ps1_lines as [|y l IH]; intros Hs; [discriminate|].
  apply StronglySorted_inv in Hs as [Hl Hy]. rewrite Forall_forall in Hy.
  simpl index. destruct (y =? lineno) eqn:E.
  - apply Z.eqb_eq in E. subst y. simpl.
    destruct l as [|z l]; [discriminate|]. intros [= <-].
    split; [apply Hy; now left|].
    intros p [->|[->|Hp]] Hlt; try lia.
    apply StronglySorted_inv in Hl as [_ Hz]. rewrite Forall_forall in Hz.
    specialize (Hz p Hp). lia.
  - destruct (index lineno l) as [i|] eqn:Ei; [|discriminate].
    simpl. intros H. destruct (IH Hl H) as [H1 H2].
    split; [exact H1|]. intros p [->|Hp] Hlt; [|now apply H2].
    apply index_In in Ei. specialize (Hy _ Ei). lia.
Qed.

Section Skip.

Variable ps1_lines : list Z.
Variable len b : Z.
Hypothesis ps1_sorted : StronglySorted Z.lt ps1_lines.
Hypothesis b_within : b <= len.

(** After the jump to [b]: [startline] is [b] or more, and the lines
    before [b] are skipped. *)
Lemma body_after_jump (lineno : Z) (line : string) (st : locals) :
  is_start_tag line = false ->
  explicit_flag st = false /\ endline st = len /\ b <= startline st /\
  (lineno < b -> skipto st = Some b) ->
  let st' := body ps1_lines lineno line st in
  explicit_flag st' = false /\ endline st' = len /\ b <= startline st' /\
  (lineno + 1 < b -> skipto st' = Some b).
Proof.
  intros Ht (Hf & He & Hs & Hk).
  destruct st as [s e f i k]. simpl in *. subst f e.
  destruct (Z.ltb_spec lineno b) as [Hlt|Hge].
  - rewrite (Hk Hlt). unfold body. simpl.
    destruct (Z.eqb_spec lineno b); [lia|]. simpl. auto.
  - unfold body, on_end_tag, on_start_tag, on_implicit_pattern,
      set_startline, set_endline, set_skipto. simpl.
    destruct k as [t|]; [destruct (negb (lineno =? t))|]; simpl;
      rewrite ?Ht; simpl;
      try (destruct (is_implicit line); simpl;
           [destruct (ps1_next ps1_lines lineno) as [| |b2] eqn:En; simpl;
            try (apply (ps1_next_sorted _ _ _ ps1_sorted) in En as [En _])|]);
      repeat split; auto; lia.
Qed.

Lemma loop_after_jump (lines : list string) (lineno : Z) (st : locals) :
  existsb is_start_tag lines = false ->
  explicit_flag st = false /\ endline st = len /\ b <= startline st /\
  (lineno < b -> skipto st = Some b) ->
  b <= startline (loop ps1_lines lineno lines st).
Proof.
  revert lineno st. induction lines as [|line rest IH]; intros n st Ht H.
  - simpl. tauto.
  - simpl in Ht. apply orb_false_iff in Ht as [Ht Hr]. simpl.
    apply IH; [exact Hr|]. now apply body_after_jump.
Qed.

(** Before a boundary that is not skipped: a jump goes to the least
    boundary from the line on. *)
Lemma body_before_boundary (lineno : Z) (line : string) (st : locals) :
  is_start_tag line = false ->
  explicit_flag st = false /\ endline st = len /\
  (forall t, skipto st = Some t ->
             lineno <= t /\ forall p, In p ps1_lines -> lineno <= p -> t <= p) ->
  let st' := body ps1_lines lineno line st in
  explicit_flag st' = false /\ endline st' = len /\
  (forall t, skipto st' = Some t ->
             lineno + 1 <= t /\
             forall p, In p ps1_lines -> lineno + 1 <= p -> t <= p).
Proof.
  intros Ht (Hf & He & Hk).
  destruct st as [s e f i k]. simpl in *. subst f e.
  unfold body, on_end_tag, on_start_tag, on_implicit_pattern,
    set_startline, set_endline, set_skipto. simpl.
  assert (Hnext : forall b2 t',
            ps1_next ps1_lines lineno = NextPs1 b2 -> Some b2 = Some t' ->
            lineno + 1 <= t' /\
            forall p, In p ps1_lines -> lineno + 1 <= p -> t' <= p).
  { intros b2 t' En [= <-].
    destruct (ps1_next_sorted _ _ _ ps1_sorted En) as [E1 E2].
    split; [lia|]. intros p Hp Hle. apply E2; auto. lia. }
  destruct k as [t|].
  - destruct (Hk t eq_refl) as [H1 H2].
    destruct (Z.eqb_spec lineno t) as [<-|Hne]; simpl.
    + rewrite Ht. destruct (is_implicit line); simpl;
        [destruct (ps1_next ps1_lines lineno) as [| |b2] eqn:En; simpl|];
        (split; [reflexivity|split; [reflexivity|]]);
        try (intros t' Ht'; discriminate).
      intros t' Ht'. now apply (Hnext b2 t' eq_refl).
    + split; [reflexivity|split; [reflexivity|]].
      intros t' [= <-]. split; [lia|].
      intros p Hp Hle. apply H2; auto. lia.
  - rewrite Ht. destruct (is_implicit line); simpl;
      [destruct (ps1_next ps1_lines lineno) as [| |b2] eqn:En; simpl|];
      (split; [reflexivity|split; [reflexivity|]]);
      try (intros t' Ht'; discriminate).
    intros t' Ht'. now apply (Hnext b2 t' eq_refl).
Qed.

Lemma loop_skips_statement (lines : list string) (lineno : Z) (st : locals)
    (k : nat) (line : string) :
  existsb is_start_tag lines = false ->
  nth_error lines k = Some line ->
  is_implicit line = true ->
  ps1_next ps1_lines (lineno + Z.of_nat k) = NextPs1 b ->
  explicit_flag st = false /\ endline st = len /\
  (forall t, skipto st = Some t ->
             lineno <= t /\ forall p, In p ps1_lines -> lineno <= p -> t <= p) ->
  b <= startline (loop ps1_lines lineno lines st).
Proof.
  revert lineno st k.
  induction lines as [|l rest IH]; intros n st k Ht Hk Hi Hn H;
    [destruct k; discriminate|].
  simpl in Ht. apply orb_false_iff in Ht as [Ht Hr]. simpl loop.
  destruct k as [|k].
  - injection Hk as ->. rewrite Z.add_0_r in Hn.
    apply loop_after_jump; [exact Hr|].
    destruct H as (Hf & He & Hsk).
    assert (Hin : In n ps1_lines).
    { unfold ps1_next in Hn.
      destruct (index n ps1_lines) as [i|] eqn:Ei; [|discriminate].
      now apply index_In in Ei. }
    destruct st as [s e f i sk]. simpl in *. subst f e.
    assert (Hev : sk = None \/ sk = Some n).
    { destruct sk as [t|]; [|now left]. right.
      destruct (Hsk t eq_refl) as [H1 H2]. specialize (H2 n Hin). f_equal. lia. }
    unfold body, on_end_tag, on_start_tag, on_implicit_pattern,
      set_startline, set_endline, set_skipto.
    destruct Hev as [-> | ->]; simpl; rewrite ?Z.eqb_refl; simpl;
      rewrite Hi, Hn, Ht; simpl; repeat split; auto; lia.
  - simpl in Hk. apply (IH (n + 1) _ k); auto.
    + now replace (n + 1 + Z.of_nat k) with (n + Z.of_nat (S k)) by lia.
    + now apply body_before_boundary.
Qed.

End Skip.

(** ** The properties of the specification *)

Section Claims.

Variable scanner : list string -> scan.

Lemma finish_Return (st : locals) (s e : Z) (ind : string) :
  finish st = Return (s, e, ind) ->
  s = startline st /\ e = endline st /\ ind = init_indent st /\ s <= e.
Proof.
  unfold finish. destruct (startline st <=? endline st) eqn:E; [|discriminate].
  intros [= <- <- <-]. apply Z.leb_le in E. auto.
Qed.

Lemma find_insert_points_pass (lines : list string) (r : Z * Z * string) :
  _find_insert_points scanner lines = Return r ->
  exists ps1_lines,
    ps1_lines_of scanner lines = Return ps1_lines /\
    finish (loop ps1_lines 0 lines (initial lines)) = Return r.
Proof.
  unfold _find_insert_points.
  destruct (ps1_lines_of scanner lines) as [ps1| |]; try discriminate.
  intros H. now exists ps1.
Qed.

(** C9.  The lines ['#comment', 'x = 1', 'y = 2'], each reported as a
    boundary by the scanner: no implicit pattern matches ['x = 1'], and the
    locator returns [start = 1] and [end = 3] (with no indentation). *)
Theorem preamble_exact_boundary :
  scanner (source_lines ["#comment"; "x = 1"; "y = 2"]) = Ps1Lines [0; 1; 2] ->
  is_implicit "x = 1" = false /\
  _find_insert_points scanner ["#comment"; "x = 1"; "y = 2"]
  = Return (1, 3, "").
Proof.
  intros H. split; [reflexivity|].
  unfold _find_insert_points, ps1_lines_of. rewrite H. reflexivity.
Qed.

(** C7.  When the pass of the locator ends with [startline > endline], the
    call raises [AssertionError]; and no call returns a triple with
    [start > end]. *)
Theorem malformed_pairing_is_fatal (lines : list string) :
  (forall ps1_lines,
      ps1_lines_of scanner lines = Return ps1_lines ->
      endline (loop ps1_lines 0 lines (initial lines))
        < startline (loop ps1_lines 0 lines (initial lines)) ->
      _find_insert_points scanner lines = AssertionError)
  /\ (forall s e ind,
         _find_insert_points scanner lines = Return (s, e, ind) -> s <= e).
Proof.
  split.
  - intros ps1 Hps H. unfold _find_insert_points. rewrite Hps.
    unfold finish.
    destruct (Z.leb_spec (startline (loop ps1 0 lines (initial lines)))
                (endline (loop ps1 0 lines (initial lines))));
      [lia|reflexivity].
  - intros s e ind H. apply find_insert_points_pass in H as [ps1 [_ H]].
    apply finish_Return in H. tauto.
Qed.

(** C8.  When the scanner reports only line numbers of the file, from [0]
    to [len(lines)], a returned triple has
    [0 <= start <= end <= len(lines)]. *)
Theorem insertion_point_within_file (lines : list string) (s e : Z)
    (ind : string) :
  (forall ps1_lines,
      scanner (source_lines lines) = Ps1Lines ps1_lines ->
      Forall (fun b => 0 <= b <= Z.of_nat (List.length lines)) ps1_lines) ->
  _find_insert_points scanner lines = Return (s, e, ind) ->
  0 <= s <= e /\ e <= Z.of_nat (List.length lines).
Proof.
  intros Hscan H. apply find_insert_points_pass in H as [ps1 [Hps H]].
  apply finish_Return in H as (-> & -> & _ & Hle).
  assert (Hin : Forall (fun b => 0 <= b <= Z.of_nat (List.length lines)) ps1).
  { unfold ps1_lines_of in Hps.
    destruct (scanner (source_lines lines)) as [l| |] eqn:E.
    - injection Hps as <-. now apply Hscan.
    - destruct (List.length lines =? 0)%nat; [|discriminate].
      injection Hps as <-. constructor.
    - discriminate. }
  destruct (loop_in_file ps1 _ Hin lines 0 (initial lines)) as [H1 H2].
  - lia.
  - lia.
  - unfold in_file, initial; simpl. lia.
  - lia.
Qed.

(** C6.  The merged text is the text of
    [lines[:start] ++ [indented content + newline] ++ lines[end:]] with the
    whitespace at its end replaced by exactly one newline; and on an empty
    file the content ['import a\nimport b'] gives ['import a\nimport b\n']. *)
Theorem merged_text_spliced :
  (forall lines initstr s e ind,
      _find_insert_points scanner lines = Return (s, e, ind) ->
      exists new_text,
        _insert_autogen_text scanner lines initstr = Return new_text /\
        normalized
          (join "" (upto s lines ++ [(_indent initstr ind ++ nl)%string]
                      ++ from e lines)%list)
          new_text)
  /\ (scanner [] <> OtherError ->
      _insert_autogen_text scanner [] ("import a" ++ nl ++ "import b")
      = Return ("import a" ++ nl ++ "import b" ++ nl)).
Proof.
  split.
  - intros lines initstr s e ind H. unfold _insert_autogen_text. rewrite H.
    eexists. split; [reflexivity|].
    set (text := join "" _).
    destruct (rstrip_split isspace text) as [w [Ht Hw]].
    exists (rstrip text), w. repeat split.
    + exact Ht.
    + now apply blank_rstrip.
    + apply trailing_space_rstrip.
  - intros H. unfold _insert_autogen_text, _find_insert_points, ps1_lines_of.
    simpl source_lines. destruct (scanner []); try reflexivity. congruence.
Qed.

(** X10 (the part of C4 that holds).  In a file without start tag, with
    increasing boundaries within the file, a line that matches an implicit
    pattern and is a boundary with a next boundary [b] is evaluated, and the
    returned [start] is [b] or more: it is not inside that statement. *)
Theorem multiline_statement_is_skipped (lines : list string)
    (ps1_lines : list Z) (k : nat) (line : string) (b s e : Z)
    (ind : string) :
  ps1_lines_of scanner lines = Return ps1_lines ->
  StronglySorted Z.lt ps1_lines ->
  Forall (fun p => 0 <= p <= Z.of_nat (List.length lines)) ps1_lines ->
  existsb is_start_tag lines = false ->
  nth_error lines k = Some line ->
  is_implicit line = true ->
  ps1_next ps1_lines (Z.of_nat k) = NextPs1 b ->
  _find_insert_points scanner lines = Return (s, e, ind) ->
  b <= s.
Proof.
  intros Hps Hsorted Hin Ht Hk Hi Hn H.
  unfold _find_insert_points in H. rewrite Hps in H.
  apply finish_Return in H as (-> & _).
  assert (Hb : b <= Z.of_nat (List.length lines)).
  { apply ps1_next_In in Hn. rewrite Forall_forall in Hin.
    specialize (Hin b Hn). simpl in Hin. lia. }
  apply (loop_skips_statement ps1_lines _ b Hsorted Hb lines 0 _ k line);
    auto.
  unfold initial; simpl.
  split; [reflexivity|split; [reflexivity|intros t Hsk; discriminate]].
Qed.

End Claims.


Section TagClaims.

Variable scanner : list string -> scan.

(** C1, as amended.  With the last start tag [o] at index [i] and the last
    end tag [c] at index [j > i], both evaluated by the pass (neither is
    passed over by a jump), the locator returns [start = i + 1] and
    [end = j], with the indentation of [o], whatever tags come earlier. *)
Theorem last_tags_win (pre mid post : list string) (o c : string)
    (ps1_lines : list Z) :
  ps1_lines_of scanner (pre ++ o :: mid ++ c :: post) = Return ps1_lines ->
  evaluated ps1_lines (pre ++ o :: mid ++ c :: post) (List.length pre)
  = true ->
  evaluated ps1_lines (pre ++ o :: mid ++ c :: post)
    (List.length (pre ++ o :: mid)) = true ->
  is_start_tag o = true ->
  existsb is_start_tag mid = false ->
  is_end_tag c = true ->
  existsb is_start_tag post = false ->
  existsb is_end_tag post = false ->
  _find_insert_points scanner (pre ++ o :: mid ++ c :: post)
  = Return (Z.of_nat (List.length pre) + 1,
            Z.of_nat (List.length pre) + 1 + Z.of_nat (List.length mid),
            str_upto (find "#"%char o) o).
Proof.
  intros Hps Eo Ec Ho Hmid Hc Hp1 Hp2.
  now apply (find_insert_points_pair scanner pre mid post o c ps1_lines).
Qed.

(** C2, as amended.  In a file with one start tag [o] and, after it, one
    end tag [c], both evaluated by the pass (neither is passed over by a
    jump), the locator returns the range of the lines between the two,
    and the merged text is the lines up to [o], the indented content, and
    the lines from [c] on with the whitespace at the end of the file
    replaced by one newline: [c] is kept but for whitespace at its end,
    and kept as it is when it has none before its newline. *)
Theorem marker_round_trip (pre body_lines post : list string) (o c : string)
    (ps1_lines : list Z) (initstr : string) :
  let lines := (pre ++ o :: body_lines ++ c :: post)%list in
  let indent := str_upto (find "#"%char o) o in
  ps1_lines_of scanner lines = Return ps1_lines ->
  evaluated ps1_lines lines (List.length pre) = true ->
  evaluated ps1_lines lines (List.length (pre ++ o :: body_lines)) = true ->
  is_start_tag o = true ->
  is_end_tag c = true ->
  existsb is_start_tag (pre ++ body_lines ++ post) = false ->
  existsb is_end_tag (pre ++ body_lines ++ post) = false ->
  _find_insert_points scanner lines
  = Return (Z.of_nat (List.length pre) + 1,
            Z.of_nat (List.length pre) + 1
              + Z.of_nat (List.length body_lines),
            indent)
  /\ _insert_autogen_text scanner lines initstr
     = Return (join "" pre ++ o ++ _indent initstr indent ++ nl
                 ++ rstrip (c ++ join "" post) ++ nl)
  /\ (exists tail, rstrip (c ++ join "" post) = rstrip c ++ tail)
  /\ (c = rstrip c ++ nl ->
      exists tail, rstrip (c ++ join "" post) ++ nl = c ++ tail).
Proof.
  intros lines indent Hps Eo Ec Ho Hc Hs He.
  rewrite !existsb_app in Hs, He.
  apply orb_false_iff in Hs as [_ Hs]. apply orb_false_iff in Hs as [Hs1 Hs2].
  apply orb_false_iff in He as [_ He]. apply orb_false_iff in He as [_ He2].
  assert (Hfind : _find_insert_points scanner lines
                  = Return (Z.of_nat (List.length pre) + 1,
                            Z.of_nat (List.length pre) + 1
                              + Z.of_nat (List.length body_lines),
                            indent)).
  { apply (find_insert_points_pair scanner pre body_lines post o c
             ps1_lines); auto. }
  assert (Hcb : blank c = false)
    by now apply implicit_not_blank, end_tag_implicit.
  split; [exact Hfind|]. split.
  2:{ split.
      - destruct (blank (join "" post)) eqn:Eb.
        + exists "". now rewrite (rstrip_app_blank _ _ Eb), append_nil_r.
        + destruct (rstrip_split isspace c) as [w [Hw _]]. fold rstrip in Hw.
          exists (w ++ rstrip (join "" post)).
          rewrite (rstrip_app_nonblank _ _ Eb). rewrite Hw at 1.
          now rewrite append_assoc.
      - intros Hclean. destruct (blank (join "" post)) eqn:Eb.
        + exists "". now rewrite (rstrip_app_blank _ _ Eb), append_nil_r.
        + exists (rstrip (join "" post) ++ nl).
          now rewrite (rstrip_app_nonblank _ _ Eb), append_assoc. }
  unfold _insert_autogen_text. rewrite Hfind. f_equal.
  unfold lines. rewrite upto_pair, from_pair.
  set (block := (_indent initstr indent ++ nl)%string).
  assert (Ht : join "" ((pre ++ [o]) ++ [block] ++ c :: post)
               = (join "" pre ++ o ++ block) ++ (c ++ join "" post)).
  { rewrite !join_app, !join_cons. change (join "" []) with "".
    now rewrite !append_nil_r, !append_assoc. }
  rewrite Ht, rstrip_app_nonblank.
  - unfold block. now rewrite !append_assoc.
  - now rewrite blank_app, Hcb.
Qed.


(** C5, as amended.  For lines as [readlines] gives them and a located
    insertion point, the block the merge inserts has one line for each line
    of the content: the indentation followed by that line, right-trimmed. *)
Theorem inserted_block_lines (lines : list string) (initstr : string)
    (s e : Z) (ind : string) :
  forallb is_line lines = true ->
  _find_insert_points scanner lines = Return (s, e, ind) ->
  split_nl (_indent initstr ind)
  = map (fun line => rstrip (ind ++ line)) (split_nl initstr)
  /\ _insert_autogen_text scanner lines initstr
     = Return (rstrip (join "" (upto s lines
                                  ++ [(_indent initstr ind ++ nl)%string]
                                  ++ from e lines)%list) ++ nl).
Proof.
  intros Hl H. split.
  - apply split_nl__indent.
    apply find_insert_points_pass in H as [ps1 [_ H]].
    apply finish_Return in H as (_ & _ & -> & _).
    apply (loop_indent (fun i => no_newline i = true)); [reflexivity|].
    intros line Hin Ht. apply start_tag_indent_no_newline; [|exact Ht].
    rewrite forallb_forall in Hl. now apply Hl.
  - unfold _insert_autogen_text. now rewrite H.
Qed.

(** C10, as amended.  When the last start tag of the file is four spaces
    and then its comment character, and the pass evaluates that line (it
    is not passed over by a jump), a returned triple has those four spaces
    as indentation and starts after that tag; and the block the merge
    inserts has, for each line of the content, the empty line when that
    line is blank and else the four spaces and the line without its
    trailing whitespace. *)
Theorem indent_capture (pre post : list string) (o rest : string)
    (ps1_lines : list Z) (initstr : string) (s e : Z) (ind : string) :
  o = "    " ++ String "#"%char rest ->
  is_start_tag o = true ->
  existsb is_start_tag post = false ->
  ps1_lines_of scanner (pre ++ o :: post) = Return ps1_lines ->
  evaluated ps1_lines (pre ++ o :: post) (List.length pre) = true ->
  _find_insert_points scanner (pre ++ o :: post) = Return (s, e, ind) ->
  ind = "    "
  /\ s = Z.of_nat (List.length pre) + 1
  /\ split_nl (_indent initstr ind)
     = map (fun line => if blank line then "" else "    " ++ rstrip line)
           (split_nl initstr)
  /\ _insert_autogen_text scanner (pre ++ o :: post) initstr
     = Return (rstrip (join "" (upto s (pre ++ o :: post)
                                  ++ [(_indent initstr ind ++ nl)%string]
                                  ++ from e (pre ++ o :: post))%list) ++ nl).
Proof.
  intros Ho Ht Hpost Hps Eo H.
  destruct (seen_at pre post o ps1_lines Eo Hpost)
    as (pre' & post' & Hseen & Hlen & Hpost').
  assert (Hex : existsb is_start_tag (seen ps1_lines (pre ++ o :: post))
                = true).
  { rewrite Hseen, existsb_app. simpl. now rewrite Ht, orb_true_r. }
  pose proof H as H'.
  rewrite (find_insert_points_seen scanner _ _ Hps Hex) in H'.
  apply finish_Return in H' as (Hs & _ & Hi & _).
  unfold plain_pass in Hs, Hi. cbn [startline init_indent] in Hs, Hi.
  rewrite Hseen in Hs, Hi.
  rewrite last_start_app in Hs. rewrite last_indent_app in Hi.
  cbn [last_start last_indent] in Hs, Hi.
  rewrite Ht, !orb_true_r, (last_start_explicit_none _ Hpost') in Hs.
  rewrite (last_indent_none _ Hpost'), Ht in Hi. rewrite Hlen in Hs.
  assert (Hind : ind = "    ").
  { rewrite Hi, Ho.
    pose proof (find_app_hash "    " rest "" eq_refl) as Hf.
    rewrite append_nil_r in Hf. rewrite Hf.
    apply (str_upto_app "    " (String "#"%char rest)). }
  clear Hi. subst ind. split; [reflexivity|]. split; [|split].
  - rewrite Hs. cbn [orb]. lia.
  - rewrite split_nl__indent by reflexivity.
    apply map_ext. intros line. now apply rstrip_indented.
  - unfold _insert_autogen_text. now rewrite H.
Qed.

End TagClaims.

Section Idempotence.

Variable scanner : list string -> scan.





End Idempotence.

(** ** The options *)

Lemma dict_set_keys (k : string) (v : bool) (d : dict) :
  dict_mem k d = true -> map fst (dict_set k v d) = map fst d.
Proof.
  unfold dict_mem. induction d as [|[k' v'] d IH]; simpl; [discriminate|].
  destruct (String.eqb k' k) eqn:E.
  - intros _. apply String.eqb_eq in E. now subst.
  - simpl. intros H. now rewrite IH.
Qed.

Lemma dict_get_set (k k' : string) (v : bool) (d : dict) :
  dict_get k' (dict_set k v d)
  = if String.eqb k k' then Some v else dict_get k' d.
Proof.
  induction d as [|[k0 v0] d IH]; simpl.
  - reflexivity.
  - destruct (String.eqb k0 k) eqn:E0; simpl.
    + apply String.eqb_eq in E0. subst k0. now destruct (String.eqb k k').
    + rewrite IH. destruct (String.eqb k0 k') eqn:E1; [|reflexivity].
      apply String.eqb_eq in E1. subst k0.
      rewrite String.eqb_sym, E0. reflexivity.
Qed.

Lemma dict_get_None (k : string) (d : dict) :
  ~ In k (map fst d) -> dict_get k d = None.
Proof.
  induction d as [|[k0 v0] d IH]; simpl; [reflexivity|]. intros H.
  destruct (String.eqb k0 k) eqn:E.
  - apply String.eqb_eq in E. tauto.
  - apply IH. tauto.
Qed.

Lemma dict_update_keys (other d : dict) :
  forallb (fun item => dict_mem (fst item) d) other = true ->
  map fst (dict_update d other) = map fst d.
Proof.
  unfold dict_update. revert d.
  induction other as [|[k v] other IH]; intros d H; [reflexivity|].
  simpl in H. apply andb_true_iff in H as [Hk Ho]. simpl.
  rewrite IH.
  - now apply dict_set_keys.
  - rewrite forallb_forall in *. intros item Hi. specialize (Ho item Hi).
    unfold dict_mem in *. rewrite existsb_exists in *.
    destruct Ho as [x [Hx Hx']]. apply (in_map fst) in Hx.
    rewrite <- (dict_set_keys k v d) in Hx
      by (unfold dict_mem; now rewrite existsb_exists in *).
    apply in_map_iff in Hx as [y [Hy Hy']]. exists y. split; [exact Hy'|].
    now rewrite Hy.
Qed.

(** After the update a key has the value of [other], and else its own. *)
Lemma dict_get_update (k : string) (other d : dict) :
  NoDup (map fst other) ->
  dict_get k (dict_update d other)
  = match dict_get k other with
    | Some v => Some v
    | None => dict_get k d
    end.
Proof.
  unfold dict_update. revert d.
  induction other as [|[k0 v0] other IH]; intros d Hn; [reflexivity|].
  simpl in Hn. apply NoDup_cons_iff in Hn as [Hk0 Hn]. simpl.
  rewrite (IH _ Hn), dict_get_set.
  destruct (String.eqb k0 k) eqn:E; [|reflexivity].
  apply String.eqb_eq in E. subst k0. now rewrite (dict_get_None _ _ Hk0).
Qed.

Lemma bad_key_None (given : dict) :
  forallb (fun item => dict_mem (fst item) default_options) given = true ->
  bad_key given = None.
Proof.
  induction given as [|[k v] given IH]; [reflexivity|]. cbn [forallb fst].
  intros H. apply andb_true_iff in H as [Hk Hg].
  change (bad_key ((k, v) :: given))
    with (if negb (dict_mem k default_options) then Some k else bad_key given).
  rewrite Hk. cbn [negb]. now apply IH.
Qed.

Lemma bad_key_first (g1 g2 : dict) (k : string) (v : bool) :
  forallb (fun item => dict_mem (fst item) default_options) g1 = true ->
  dict_mem k default_options = false ->
  bad_key (g1 ++ (k, v) :: g2)%list = Some k.
Proof.
  induction g1 as [|[k1 v1] g1 IH]; intros H1 Hk.
  - change (bad_key ([] ++ (k, v) :: g2)%list)
      with (if negb (dict_mem k default_options) then Some k else bad_key g2).
    now rewrite Hk.
  - cbn [forallb fst] in H1. apply andb_true_iff in H1 as [Hk1 H1].
    change (bad_key (((k1, v1) :: g1) ++ (k, v) :: g2)%list)
      with (if negb (dict_mem k1 default_options) then Some k1
            else bad_key (g1 ++ (k, v) :: g2)%list).
    rewrite Hk1. cbn [negb]. now apply IH.
Qed.

Lemma ensure_options_keys (given : option dict) (options : dict) :
  _ensure_options given = Options options ->
  map fst options = map fst default_options.
Proof.
  unfold _ensure_options.
  set (g := match given with None => [] | Some x => x end).
  destruct (bad_key g) eqn:E; [discriminate|]. intros [= <-].
  apply dict_update_keys. clearbody g. clear given.
  induction g as [|[k v] g IH];
    [reflexivity|].
  change (bad_key ((k, v) :: g))
    with (if negb (dict_mem k default_options) then Some k else bad_key g) in E.
  destruct (dict_mem k default_options) eqn:Ek; [|discriminate].
  cbn [negb] in E. cbn [forallb fst]. rewrite Ek. now apply IH.
Qed.

(** ** The closed form without start tag *)

Lemma last_end_no_start_tag (lines : list string) :
  existsb is_start_tag lines = false -> last_end false lines = None.
Proof.
  induction lines as [|l ls IH]; [reflexivity|]. simpl. intros H.
  apply orb_false_iff in H as [Hl Hls]. now rewrite Hl, (IH Hls).
Qed.

(** ** Prefixes *)

Lemma prefix_refl_app (a b : string) : String.prefix a (a ++ b) = true.
Proof.
  induction a as [|c a IH]; simpl; [now destruct b|].
  destruct (ascii_dec c c); [exact IH|congruence].
Qed.

Lemma prefix_app_r (p x y : string) :
  String.prefix p x = true -> String.prefix p (x ++ y) = true.
Proof.
  revert x. induction p as [|c p IH]; intros x; [now destruct (x ++ y)|].
  destruct x as [|d x]; simpl; [discriminate|].
  destruct (ascii_dec c d); [apply IH|discriminate].
Qed.

Lemma prefix_app_l (a p x : string) :
  String.prefix p x = true -> String.prefix (a ++ p) (a ++ x) = true.
Proof.
  intros H. induction a as [|c a IH]; simpl; [exact H|].
  destruct (ascii_dec c c); [exact IH|congruence].
Qed.

Lemma prefix_rstrip_app (a b : string) :
  String.prefix (rstrip a) (rstrip (a ++ b)) = true.
Proof.
  destruct (blank b) eqn:Eb.
  - rewrite (rstrip_app_blank _ _ Eb).
    rewrite <- (append_nil_r (rstrip a)) at 2. apply prefix_refl_app.
  - rewrite (rstrip_app_nonblank _ _ Eb).
    destruct (rstrip_split isspace a) as [w [Ha _]]. fold rstrip in Ha.
    rewrite Ha at 2. rewrite append_assoc. apply prefix_refl_app.
Qed.

(** ** The block of [_indent] *)

Lemma _indent_lines (text indent : string) :
  split_nl (_indent text indent)
  = map rstrip (split_nl (indent ++ replace_nl (nl ++ indent) text)).
Proof.
  unfold _indent. apply split_nl_join.
  - destruct (split_nl_cons (indent ++ replace_nl (nl ++ indent) text))
      as [p [ps ->]]. discriminate.
  - apply Forall_forall. intros x Hx. apply in_map_iff in Hx as [l [<- Hl]].
    apply no_newline_rstrip.
    pose proof (split_nl_pieces (indent ++ replace_nl (nl ++ indent) text))
      as Hf.
    rewrite Forall_forall in Hf. exact (Hf _ Hl).
Qed.

Lemma join_split_nl (s : string) : join nl (split_nl s) = s.
Proof.
  induction s as [|c s IH]; [reflexivity|].
  destruct (Ascii.eqb c NL) eqn:Ec.
  - pose proof Ec as Ec'. apply Ascii.eqb_eq in Ec'. subst c.
    change (split_nl (String NL s)) with ("" :: split_nl s).
    destruct (split_nl_cons s) as [p [ps E]]. rewrite E in *.
    change (join nl ("" :: p :: ps)) with ("" ++ nl ++ join nl (p :: ps)).
    now rewrite IH.
  - rewrite (split_nl_other _ _ Ec).
    destruct (split_nl_cons s) as [p [ps E]]. rewrite E in *.
    destruct ps as [|q ps].
    + simpl in *. now rewrite IH.
    + change (join nl (String c p :: q :: ps))
        with (String c (p ++ nl ++ join nl (q :: ps))).
      change (join nl (p :: q :: ps)) with (p ++ nl ++ join nl (q :: ps)) in IH.
      now rewrite IH.
Qed.

Lemma _indent_eq (text indent : string) :
  no_newline indent = true ->
  _indent text indent
  = join nl (map (fun line => rstrip (indent ++ line)) (split_nl text)).
Proof.
  intros H. rewrite <- (join_split_nl (_indent text indent)).
  now rewrite split_nl__indent.
Qed.

(** ** The closed form around the last start tag *)

Lemma last_start_after (explicit : bool) (A post : list string) (o : string) :
  is_start_tag o = true ->
  exists k, last_start explicit (A ++ o :: post) = Some k
            /\ (List.length A <= k)%nat.
Proof.
  intros Ho. rewrite last_start_app. simpl. rewrite Ho. simpl.
  destruct (last_start (explicit || existsb is_start_tag A || true) post)
    as [j|]; eexists; (split; [reflexivity|lia]).
Qed.

Lemma last_start_at (explicit : bool) (A post : list string) (o : string) :
  is_start_tag o = true ->
  existsb is_start_tag post = false ->
  last_start explicit (A ++ o :: post) = Some (List.length A).
Proof.
  intros Ho Hp. rewrite last_start_app. simpl. rewrite Ho, orb_true_r.
  rewrite (last_start_explicit_none _ Hp). simpl. f_equal. lia.
Qed.

Lemma last_indent_at (A post : list string) (o : string) :
  is_start_tag o = true ->
  existsb is_start_tag post = false ->
  last_indent (A ++ o :: post) = Some (str_upto (find "#"%char o) o).
Proof.
  intros Ho Hp. rewrite last_indent_app. simpl.
  now rewrite (last_indent_none _ Hp), Ho.
Qed.

Lemma upto_0 {A : Type} (l : list A) : upto 0 l = [].
Proof. rewrite upto_firstn by lia. reflexivity. Qed.

Ltac leb_case :=
  match goal with
  | |- context [?a <=? ?b] => destruct (Z.leb_spec a b)
  end.

(** The closed form when an end tag after a start tag comes before the
    last start tag. *)
Lemma plain_pass_end_before_start (pre mid post lines : list string)
    (c o : string) :
  existsb is_start_tag pre = true ->
  is_end_tag c = true ->
  existsb is_end_tag mid = false ->
  is_start_tag o = true ->
  existsb is_end_tag post = false ->
  finish (plain_pass 0 (pre ++ c :: mid ++ o :: post) (initial lines))
  = AssertionError.
Proof.
  intros Hpre Hc Hmid Ho Hpost.
  unfold finish, plain_pass, initial. simpl.
  assert (He : last_end false (pre ++ c :: mid ++ o :: post)
               = Some (List.length pre)).
  { rewrite last_end_app. simpl. rewrite Hpre, Hc. simpl.
    rewrite last_end_none.
    - f_equal. lia.
    - rewrite existsb_app. simpl.
      now rewrite Hmid, Hpost, (start_tag_not_end_tag _ Ho). }
  rewrite He.
  replace (pre ++ c :: mid ++ o :: post)%list
    with ((pre ++ c :: mid) ++ o :: post)%list
    by (now rewrite <- app_assoc).
  destruct (last_start_after false (pre ++ c :: mid) post o Ho)
    as (k & -> & Hk).
  rewrite length_app in Hk. simpl in Hk.
  leb_case; [lia|reflexivity].
Qed.

(** ** Indenting twice *)

Lemma no_newline_app (a b : string) :
  no_newline (a ++ b) = no_newline a && no_newline b.
Proof.
  induction a as [|c a IH]; [reflexivity|]. simpl.
  now rewrite IH, andb_assoc.
Qed.

(** ** Joins with a separator *)

Lemma join_sep_snoc (sep : string) (xs : list string) (y : string) :
  xs <> [] -> join sep (xs ++ [y]) = join sep xs ++ sep ++ y.
Proof.
  unfold join. induction xs as [|x xs IH]; [congruence|]. intros _.
  destruct xs as [|x' xs].
  - reflexivity.
  - change (String.concat sep ((x :: x' :: xs) ++ [y]))
      with (x ++ sep ++ String.concat sep ((x' :: xs) ++ [y])).
    rewrite IH by discriminate.
    change (String.concat sep (x :: x' :: xs))
      with (x ++ sep ++ String.concat sep (x' :: xs)).
    now rewrite !append_assoc.
Qed.

(** ** The parts of [_initstr] *)

Lemma append_parts_from (new_parts parts done : list string) :
  (parts = [] /\ done = [])
  \/ (parts <> [] /\ done <> []
      /\ join nl parts = join (nl ++ nl) done) ->
  join nl (fold_left (fun parts new_part => append_part new_part parts)
             new_parts parts)
  = join (nl ++ nl) (done ++ filter truth new_parts).
Proof.
  revert parts done.
  induction new_parts as [|p ps IH]; intros parts done H.
  - simpl. rewrite app_nil_r. destruct H as [[-> ->]|(_ & _ & H)];
      [reflexivity|exact H].
  - cbn [fold_left filter]. unfold append_part at 2.
    destruct (truth p) eqn:Ep.
    + replace (done ++ p :: filter truth ps)%list
        with ((done ++ [p]) ++ filter truth ps)%list
        by (now rewrite <- app_assoc).
      apply IH. right.
      destruct H as [[-> ->]|(Hp & Hd & H)].
      * repeat split; try discriminate.
      * split; [|split].
        -- destruct parts; [congruence|discriminate].
        -- destruct done; discriminate.
        -- destruct parts as [|q qs]; [congruence|].
           rewrite (join_sep_snoc nl) by (destruct qs; discriminate).
           rewrite (join_sep_snoc nl) by discriminate.
           rewrite (join_sep_snoc (nl ++ nl)) by exact Hd.
           rewrite H. now rewrite !append_assoc.
    + now apply IH.
Qed.

(** ** Formatting with a percent sign *)

Lemma prepend_nil (r : formatted string) : prepend "" r = r.
Proof. now destruct r. Qed.

Lemma prepend_cons (c : ascii) (a : string) (r : formatted string) :
  prepend (String c "") (prepend a r) = prepend (String c a) r.
Proof. now destruct r. Qed.

Lemma percent_from_app (used : bool) (a fmt arg : string) :
  no_percent a = true ->
  percent_from used (a ++ fmt) arg = prepend a (percent_from used fmt arg).
Proof.
  induction a as [|c a IH]; intros H.
  - simpl. now rewrite prepend_nil.
  - simpl in H. apply andb_true_iff in H as [Hc Ha].
    apply negb_true_iff in Hc.
    change (percent_from used (String c a ++ fmt) arg)
      with (if Ascii.eqb c "%"
            then match (a ++ fmt)%string with
                 | String d rest' =>
                     if Ascii.eqb d "s" then
                       if used then TypeError
                       else prepend arg (percent_from true rest' arg)
                     else if Ascii.eqb d "%" then
                       prepend "%" (percent_from used rest' arg)
                     else OtherFormat
                 | EmptyString => OtherFormat
                 end
            else prepend (String c "") (percent_from used (a ++ fmt) arg)).
    rewrite Hc, (IH Ha). apply prepend_cons.
Qed.

Lemma percent_s (a arg : string) :
  no_percent a = true -> percent (a ++ "%s") arg = Formatted (a ++ arg).
Proof.
  intros H. unfold percent. rewrite (percent_from_app _ _ _ _ H).
  simpl. now rewrite append_nil_r.
Qed.

Lemma no_percent_app (a b : string) :
  no_percent (a ++ b) = no_percent a && no_percent b.
Proof.
  induction a as [|c a IH]; [reflexivity|]. simpl.
  now rewrite IH, andb_assoc.
Qed.

(** ** Further properties of the code *)

(** X1.  A given key that is not an option raises [KeyError]: the message
    names the first such key, in the order of the given dict. *)
Theorem bad_option_key_raises (g1 g2 : dict) (k : string) (v : bool) :
  forallb (fun item => dict_mem (fst item) default_options) g1 = true ->
  dict_mem k default_options = false ->
  _ensure_options (Some (g1 ++ (k, v) :: g2)%list)
  = KeyError ("options got bad key=" ++ k).
Proof.
  intros H1 Hk. unfold _ensure_options.
  now rewrite (bad_key_first g1 g2 k v H1 Hk).
Qed.

(** X2.  When every given key is an option, the result has the four
    options in their fixed order, each with the given value when it is
    given and else with its default. *)
Theorem ensured_options_lookup (given : dict) :
  forallb (fun item => dict_mem (fst item) default_options) given = true ->
  NoDup (map fst given) ->
  exists options,
    _ensure_options (Some given) = Options options
    /\ map fst options = [ "with_attrs"; "with_mods"; "with_all"; "relative" ]
    /\ forall k,
         dict_get k options
         = match dict_get k given with
           | Some v => Some v
           | None => dict_get k default_options
           end.
Proof.
  intros Hk Hn. exists (dict_update default_options given).
  split; [|split].
  - unfold _ensure_options. now rewrite (bad_key_None _ Hk).
  - now rewrite (dict_update_keys _ _ Hk).
  - intros k. now apply dict_get_update.
Qed.

(** X3.  The options that [_ensure_options] returns are a fixed point:
    given again, they come back as they are. *)
Theorem ensure_options_idempotent (given : option dict) (options : dict) :
  _ensure_options given = Options options ->
  _ensure_options (Some options) = Options options.
Proof.
  intros H. apply ensure_options_keys in H.
  destruct options as [|[k1 v1] [|[k2 v2] [|[k3 v3] [|[k4 v4] [|? ?]]]]];
    try discriminate.
  injection H as -> -> -> ->. reflexivity.
Qed.

Section LocatorExtras.

Variable scanner : list string -> scan.

(** X4.  In a file in which no line starts with an implicit pattern (so
    none has a tag either), whatever boundaries the scanner reports, the
    locator returns [(0, len(lines), '')] and the merge replaces the whole
    file: the new text is the generated content, right-trimmed line by line
    and at its end, and one newline. *)
Theorem file_without_pattern_is_replaced (lines : list string)
    (ps1_lines : list Z) (initstr : string) :
  ps1_lines_of scanner lines = Return ps1_lines ->
  existsb is_implicit lines = false ->
  _find_insert_points scanner lines
  = Return (0, Z.of_nat (List.length lines), "")
  /\ _insert_autogen_text scanner lines initstr
     = Return (rstrip (_indent initstr "") ++ nl).
Proof.
  intros Hps Hn.
  assert (H : _find_insert_points scanner lines
              = Return (0, Z.of_nat (List.length lines), "")).
  { unfold _find_insert_points. rewrite Hps.
    rewrite (loop_no_pattern _ _ _ _ Hn) by reflexivity.
    unfold finish, initial. simpl.
    destruct (Z.leb_spec 0 (Z.of_nat (List.length lines))); [reflexivity|lia]. }
  split; [exact H|]. unfold _insert_autogen_text. rewrite H.
  rewrite upto_0, from_all. simpl app. rewrite join_cons.
  change (join "" []) with "". rewrite append_nil_r.
  now rewrite rstrip_app_nl.
Qed.

(** X5.  Without a start tag in the file, whatever the scanner reports, a
    returned triple has [end = len(lines)] and the empty indentation:
    an end tag alone is ignored, and the merge keeps nothing after
    [start]. *)
Theorem end_tag_alone_is_ignored (lines : list string) (s e : Z)
    (ind initstr : string) :
  existsb is_start_tag lines = false ->
  _find_insert_points scanner lines = Return (s, e, ind) ->
  e = Z.of_nat (List.length lines) /\ ind = ""
  /\ _insert_autogen_text scanner lines initstr
     = Return (rstrip (join "" (upto s lines) ++ _indent initstr "") ++ nl).
Proof.
  intros Ht H. pose proof H as H0.
  apply find_insert_points_pass in H as [ps1 [_ H]].
  apply finish_Return in H as (_ & He & Hi & _).
  destruct (loop_no_start_tag ps1 lines 0 (initial lines) Ht eq_refl)
    as (_ & E & I).
  rewrite E in He. rewrite I in Hi. simpl in He, Hi. subst e ind.
  split; [reflexivity|]. split; [reflexivity|].
  unfold _insert_autogen_text. rewrite H0. rewrite from_all.
  rewrite join_splice. change (join "" []) with "". rewrite append_nil_r.
  rewrite <- append_assoc. now rewrite rstrip_app_nl.
Qed.

(** X6.  Whatever the lines and the scanner, the indentation of a returned
    triple is whitespace only: it is empty, or it is what stands before the
    first [#] of a start-tag line of the file. *)
Theorem captured_indent_is_whitespace (lines : list string) (s e : Z)
    (ind : string) :
  _find_insert_points scanner lines = Return (s, e, ind) ->
  blank ind = true
  /\ (ind = ""
      \/ exists line rest,
           In line lines /\ is_start_tag line = true
           /\ line = ind ++ String "#"%char rest).
Proof.
  intros H. apply find_insert_points_pass in H as [ps1 [_ H]].
  apply finish_Return in H as (_ & _ & -> & _).
  apply (loop_indent
           (fun i => blank i = true
                     /\ (i = ""
                         \/ exists line rest,
                              In line lines /\ is_start_tag line = true
                              /\ line = i ++ String "#"%char rest))).
  - split; [reflexivity|now left].
  - intros line Hin Hs.
    destruct (start_tag_indent line Hs) as (u & x & Hl & Hu & ->).
    split; [exact Hu|]. right. now exists line, x.
Qed.

(** X7.  Without a start tag, and when every statement that matches an
    implicit pattern is a line of its own, the preamble ends just after the
    last line that starts with an implicit pattern: with that line at index
    [i], the locator returns [(i + 1, len(lines), '')]. *)
Theorem preamble_ends_after_last_pattern (pre post : list string)
    (line : string) (ps1_lines : list Z) :
  ps1_lines_of scanner (pre ++ line :: post) = Return ps1_lines ->
  by_line ps1_lines (Z.of_nat (List.length (pre ++ line :: post))) 0
          (pre ++ line :: post) = true ->
  existsb is_start_tag pre = false ->
  is_start_tag line = false ->
  is_implicit line = true ->
  existsb is_implicit post = false ->
  _find_insert_points scanner (pre ++ line :: post)
  = Return (Z.of_nat (List.length pre) + 1,
            Z.of_nat (List.length (pre ++ line :: post)), "").
Proof.
  intros Hps Hj Hpre Hl Hi Hpost.
  rewrite (find_insert_points_by_line scanner _ _ Hps Hj).
  destruct (existsb_none_implicit _ Hpost) as [Hs _].
  assert (Hall : existsb is_start_tag (pre ++ line :: post) = false).
  { rewrite existsb_app. simpl. now rewrite Hpre, Hl, Hs. }
  unfold finish, plain_pass, initial. simpl.
  rewrite (last_end_no_start_tag _ Hall), (last_indent_none _ Hall).
  rewrite last_start_app. simpl. rewrite Hpre, Hl, Hi. simpl.
  rewrite (last_start_none _ _ Hpost).
  rewrite length_app, Nat.add_0_r. simpl List.length.
  leb_case; [reflexivity|lia].
Qed.

(** X8.  The last start tag of the file, evaluated by the pass, with no
    end tag in the file: the locator returns the line after the tag, the
    end of the file and the indentation of the tag, and the merge replaces
    everything after the tag. *)
Theorem start_tag_without_end_tag (pre post : list string) (o : string)
    (ps1_lines : list Z) (initstr : string) :
  ps1_lines_of scanner (pre ++ o :: post) = Return ps1_lines ->
  evaluated ps1_lines (pre ++ o :: post) (List.length pre) = true ->
  is_start_tag o = true ->
  existsb is_start_tag post = false ->
  existsb is_end_tag pre = false ->
  existsb is_end_tag post = false ->
  _find_insert_points scanner (pre ++ o :: post)
  = Return (Z.of_nat (List.length pre) + 1,
            Z.of_nat (List.length (pre ++ o :: post)),
            str_upto (find "#"%char o) o)
  /\ _insert_autogen_text scanner (pre ++ o :: post) initstr
     = Return (rstrip (join "" (pre ++ [o])
                         ++ _indent initstr (str_upto (find "#"%char o) o))
                 ++ nl).
Proof.
  intros Hps Eo Ho Hpost Hepre Hepost.
  destruct (seen_at pre post o ps1_lines Eo Hpost)
    as (pre' & post' & Hseen & Hlen & Hpost').
  assert (Hall : existsb is_start_tag (seen ps1_lines (pre ++ o :: post))
                 = true).
  { rewrite Hseen, existsb_app. simpl. now rewrite Ho, orb_true_r. }
  assert (Hend : existsb is_end_tag (pre' ++ o :: post') = false).
  { rewrite <- Hseen.
    apply (masks_none _ _ (pre ++ o :: post) eq_refl);
      [apply seen_from_masks|].
    rewrite existsb_app. simpl.
    now rewrite Hepre, Hepost, (start_tag_not_end_tag _ Ho). }
  assert (H : _find_insert_points scanner (pre ++ o :: post)
              = Return (Z.of_nat (List.length pre) + 1,
                        Z.of_nat (List.length (pre ++ o :: post)),
                        str_upto (find "#"%char o) o)).
  { rewrite (find_insert_points_seen scanner _ _ Hps Hall). rewrite Hseen.
    unfold finish, plain_pass, initial. simpl.
    rewrite (last_end_none _ _ Hend), (last_start_at _ _ _ _ Ho Hpost'),
      (last_indent_at _ _ _ Ho Hpost').
    rewrite Hlen, length_app. simpl List.length.
    leb_case; [reflexivity|lia]. }
  split; [exact H|]. unfold _insert_autogen_text. rewrite H.
  rewrite upto_pair, from_all.
  rewrite join_splice. change (join "" []) with "". rewrite append_nil_r.
  rewrite <- append_assoc. now rewrite rstrip_app_nl.
Qed.

(** X9.  A start tag [o1], then an end tag [c], then the start tag [o],
    all three evaluated by the pass, with no end tag after [c]: the
    locator and the merge raise [AssertionError]. *)
Theorem end_tag_before_last_start_tag_raises
    (pre1 pre2 mid post : list string) (o1 c o : string)
    (ps1_lines : list Z) (initstr : string) :
  let lines := (pre1 ++ o1 :: pre2 ++ c :: mid ++ o :: post)%list in
  ps1_lines_of scanner lines = Return ps1_lines ->
  is_start_tag o1 = true ->
  evaluated ps1_lines lines (List.length pre1) = true ->
  is_end_tag c = true ->
  evaluated ps1_lines lines (List.length (pre1 ++ o1 :: pre2)) = true ->
  existsb is_end_tag mid = false ->
  is_start_tag o = true ->
  evaluated ps1_lines lines
    (List.length (pre1 ++ o1 :: pre2 ++ c :: mid)) = true ->
  existsb is_end_tag post = false ->
  _find_insert_points scanner lines = AssertionError
  /\ _insert_autogen_text scanner lines initstr = AssertionError.
Proof.
  intros lines Hps Ho1 Eo1 Hc Ec Hmid Ho Eo Hpost.
  unfold evaluated in Eo1, Ec, Eo. unfold lines in Eo1, Ec, Eo.
  destruct (seen_from_at _ _ _ _ _ _ Eo1) as (pre1' & M1 & Hseen & Hn1).
  rewrite length_app in Ec. rewrite !length_app in Eo.
  cbn [List.length] in Ec, Eo. rewrite length_app in Eo.
  cbn [List.length] in Eo.
  rewrite Hn1 in Ec, Eo.
  destruct (seen_from_at _ _ _ _ _ _ Ec) as (pre2' & M2 & Hseen2 & Hn2).
  rewrite Hn2 in Eo.
  destruct (seen_from_at _ _ _ _ _ _ Eo) as (mid' & M3 & Hseen3 & _).
  rewrite Hseen3 in Hseen2. rewrite Hseen2 in Hseen.
  set (post' := seen_from _ _ post _) in Hseen.
  assert (M4 : Forall2 masks post' post) by apply seen_from_masks.
  fold lines in Hseen. fold (seen ps1_lines lines) in Hseen.
  assert (Hshape : seen ps1_lines lines
                   = ((pre1' ++ o1 :: pre2') ++ c :: mid' ++ o :: post')%list).
  { rewrite Hseen. now rewrite <- app_assoc. }
  assert (Hpre : existsb is_start_tag (pre1' ++ o1 :: pre2') = true).
  { rewrite existsb_app. simpl. now rewrite Ho1, orb_true_r. }
  assert (H : _find_insert_points scanner lines = AssertionError).
  { rewrite (find_insert_points_seen scanner _ _ Hps).
    - rewrite Hshape. apply plain_pass_end_before_start; auto.
      + exact (masks_none _ _ _ eq_refl M3 Hmid).
      + exact (masks_none _ _ _ eq_refl M4 Hpost).
    - rewrite Hshape, existsb_app. now rewrite Hpre. }
  split; [exact H|]. unfold _insert_autogen_text. now rewrite H.
Qed.

(** X11.  The merge keeps what stands before the insertion point: the new
    text starts with the text of [lines[:start]] without the whitespace at
    its end, and with that text as it is, followed by the indented block,
    when the block is not blank. *)
Theorem merge_keeps_prefix (lines : list string) (initstr : string)
    (s e : Z) (ind : string) :
  _find_insert_points scanner lines = Return (s, e, ind) ->
  exists new_text,
    _insert_autogen_text scanner lines initstr = Return new_text
    /\ startswith new_text (rstrip (join "" (upto s lines))) = true
    /\ (blank (_indent initstr ind) = false ->
        startswith new_text
          (join "" (upto s lines) ++ rstrip (_indent initstr ind)) = true).
Proof.
  intros H. unfold _insert_autogen_text. rewrite H.
  eexists. split; [reflexivity|]. rewrite join_splice. unfold startswith.
  split.
  - apply prefix_app_r, prefix_rstrip_app.
  - intros Hb. apply prefix_app_r.
    rewrite rstrip_app_nonblank by (now rewrite !blank_app, Hb).
    apply prefix_app_l.
    rewrite append_assoc. apply prefix_rstrip_app.
Qed.

(** X12.  When a line that is kept after the block is not blank, the new
    text is [lines[:start]], the indented block with its newline, and
    [lines[end:]] with the whitespace at the end replaced by one newline:
    nothing before the end of the file is trimmed. *)
Theorem merge_keeps_suffix (lines : list string) (initstr : string)
    (s e : Z) (ind : string) :
  _find_insert_points scanner lines = Return (s, e, ind) ->
  existsb (fun line => negb (blank line)) (from e lines) = true ->
  _insert_autogen_text scanner lines initstr
  = Return (join "" (upto s lines) ++ _indent initstr ind ++ nl
              ++ rstrip (join "" (from e lines)) ++ nl).
Proof.
  intros H Hb. unfold _insert_autogen_text. rewrite H.
  assert (Hj : blank (join "" (from e lines)) = false).
  { rewrite blank_join. destruct (forallb blank (from e lines)) eqn:E;
      [|reflexivity].
    apply existsb_exists in Hb as [x [Hx Hnb]].
    rewrite forallb_forall in E. rewrite (E x Hx) in Hnb. discriminate. }
  rewrite join_splice. rewrite <- !append_assoc.
  rewrite (rstrip_app_nonblank _ _ Hj). now rewrite !append_assoc.
Qed.

(** X13.  What stood between the tags plays no part: two files that differ
    only between the last start tag and the end tag after it, both tags
    evaluated by the pass on each file, merge to the same text. *)
Theorem old_block_is_forgotten (pre mid mid' post : list string)
    (o c : string) (ps1_lines ps1_lines' : list Z) (initstr : string) :
  ps1_lines_of scanner (pre ++ o :: mid ++ c :: post) = Return ps1_lines ->
  evaluated ps1_lines (pre ++ o :: mid ++ c :: post) (List.length pre)
  = true ->
  evaluated ps1_lines (pre ++ o :: mid ++ c :: post)
    (List.length (pre ++ o :: mid)) = true ->
  ps1_lines_of scanner (pre ++ o :: mid' ++ c :: post) = Return ps1_lines' ->
  evaluated ps1_lines' (pre ++ o :: mid' ++ c :: post) (List.length pre)
  = true ->
  evaluated ps1_lines' (pre ++ o :: mid' ++ c :: post)
    (List.length (pre ++ o :: mid')) = true ->
  is_start_tag o = true ->
  existsb is_start_tag mid = false ->
  existsb is_start_tag mid' = false ->
  is_end_tag c = true ->
  existsb is_start_tag post = false ->
  existsb is_end_tag post = false ->
  _insert_autogen_text scanner (pre ++ o :: mid ++ c :: post) initstr
  = _insert_autogen_text scanner (pre ++ o :: mid' ++ c :: post) initstr.
Proof.
  intros Hps Eo Ec Hps' Eo' Ec' Ho Hm Hm' Hc Hp He.
  unfold _insert_autogen_text.
  rewrite (find_insert_points_pair scanner pre mid post o c ps1_lines
             Hps Eo Ec Ho Hm Hc Hp He).
  rewrite (find_insert_points_pair scanner pre mid' post o c ps1_lines'
             Hps' Eo' Ec' Ho Hm' Hc Hp He).
  now rewrite !upto_pair, !from_pair.
Qed.

End LocatorExtras.

(** X14.  No line of an indented text ends with a whitespace character,
    whatever the text and the indentation. *)
Theorem indented_lines_are_trimmed (text indent : string) :
  Forall (fun line => trailing_space line = false)
         (split_nl (_indent text indent)).
Proof.
  rewrite _indent_lines. apply Forall_forall. intros x Hx.
  apply in_map_iff in Hx as [l [<- _]]. apply trailing_space_rstrip.
Qed.

(** X15.  Indenting twice is indenting once by both indentations, the
    outer one first, when neither holds a newline. *)
Theorem indent_twice (text inner outer : string) :
  no_newline inner = true ->
  no_newline outer = true ->
  _indent (_indent text inner) outer = _indent text (outer ++ inner).
Proof.
  intros Hi Ho.
  rewrite (_indent_eq (_indent text inner) outer Ho).
  rewrite (split_nl__indent text inner Hi), map_map.
  rewrite (_indent_eq text (outer ++ inner))
    by (now rewrite no_newline_app, Ho, Hi).
  f_equal. apply map_ext. intros line.
  unfold rstrip. now rewrite rstrip_rstrip_r, append_assoc.
Qed.

(** X16.  The text of [_initstr] is its non-empty parts, in their order,
    with one empty line between two of them: an empty part leaves no
    line. *)
Theorem parts_are_separated_by_an_empty_line (new_parts : list string) :
  join_parts new_parts = join (nl ++ nl) (filter truth new_parts).
Proof.
  unfold join_parts, append_parts.
  now rewrite (append_parts_from new_parts [] []) by (now left).
Qed.

(** X17.  With a root module name without percent sign,
    [_make_imports_str] raises nothing and gives one statement for each
    name: [from ROOT import NAME] for a name that starts with a dot, with
    all its leading dots removed, and [import NAME] for another name. *)
Theorem imports_str_lines (imports : list string) (rootmodname : string) :
  no_percent rootmodname = true ->
  _make_imports_str imports rootmodname
  = Formatted
      (join nl
         (map (fun name =>
                 if startswith name "."
                 then "from " ++ rootmodname ++ " import " ++ lstrip_dots name
                 else "import " ++ name)
              imports)).
Proof.
  intros H. unfold _make_imports_str.
  set (f := fun name : string => if startswith name "." then _ else _).
  set (g := fun name : string => if startswith name "." then _ else _).
  assert (E : comprehension f imports = Formatted (map g imports)).
  { induction imports as [|name rest IH]; [reflexivity|].
    cbn [comprehension map]. rewrite IH.
    assert (Hf : f name = Formatted (g name)).
    { unfold f, g. destruct (startswith name ".").
      - replace ("from " ++ rootmodname ++ " import %s")
          with (("from " ++ rootmodname ++ " import ") ++ "%s")
          by (now rewrite !append_assoc).
        rewrite percent_s.
        + now rewrite !append_assoc.
        + rewrite !no_percent_app, H. reflexivity.
      - now rewrite (percent_s "import "). }
    now rewrite Hf. }
  now rewrite E.
Qed.

(** X18.  [_make_imports_str] does not see how many dots a relative name
    starts with: two lists of names that start with a dot and are the same
    after their leading dots give the same result, whatever the root module
    name. *)
Theorem relative_level_is_dropped (imports imports' : list string)
    (rootmodname : string) :
  Forall2 (fun name name' =>
             startswith name "." = true /\ startswith name' "." = true
             /\ lstrip_dots name = lstrip_dots name')
          imports imports' ->
  _make_imports_str imports rootmodname
  = _make_imports_str imports' rootmodname.
Proof.
  intros H. unfold _make_imports_str.
  set (f := fun name : string => if startswith name "." then _ else _).
  assert (E : comprehension f imports = comprehension f imports').
  { induction H as [|x y xs ys (Hx & Hy & Hxy) _ IH]; [reflexivity|].
    cbn [comprehension]. rewrite IH.
    assert (Hf : f x = f y) by (unfold f; now rewrite Hx, Hy, Hxy).
    now rewrite Hf. }
  now rewrite E.
Qed.

(** X19.  A module with an empty list of names gives no line:
    [_make_fromimport_str] gives the same text with and without the items
    whose list is empty, whatever [textwrap] does. *)
Theorem empty_fromlist_is_dropped (wrap : string -> string -> list string)
    (dedent : string -> string)
    (from_imports : list (string * list string))
    (rootmodname indent : string) :
  _make_fromimport_str wrap dedent
    (filter (fun tup => (0 <? List.length (snd tup))%nat) from_imports)
    rootmodname indent
  = _make_fromimport_str wrap dedent from_imports rootmodname indent.
Proof.
  unfold _make_fromimport_str. f_equal. f_equal.
  induction from_imports as [|tup rest IH]; [reflexivity|].
  cbn [filter map]. destruct (0 <? List.length (snd tup))%nat eqn:E.
  - cbn [map filter]. now rewrite IH.
  - rewrite IH. unfold _pack_fromimport at 2. now rewrite E.
Qed.

(** ** The code on some files *)

(** C4.  The last statement of the file matches an implicit pattern and
    spans three lines, of which the second is a comment; the scanner
    reports the one boundary [0].  Line 0 is the last boundary, and the
    comment of line 1 is evaluated: the locator returns [start = 2], inside
    the statement, and not [start = end = 3]; the merge then overwrites the
    last line of the statement. *)
Example last_statement_is_split :
  let lines := [ "__version__ = (" ++ nl; "    # comment" ++ nl;
                 "    '1.0')" ++ nl ] in
  let scanner := fun _ : list string => Ps1Lines [0] in
  map is_implicit lines = [true; true; false]
  /\ ps1_next [0] 0 = LastPs1
  /\ ps1_next [0] 1 = NotPs1
  /\ _find_insert_points scanner lines = Return (2, 3, "")
  /\ _insert_autogen_text scanner lines "import a"
     = Return ("__version__ = (" ++ nl ++ "    # comment" ++ nl
                 ++ "import a" ++ nl).
Proof.
  cbv zeta. split; [reflexivity|]. split; [reflexivity|].
  split; [reflexivity|]. split; reflexivity.
Qed.

(** With a statement after it, the same statement is skipped whole. *)
Example statement_before_another_is_skipped :
  _find_insert_points (fun _ => Ps1Lines [0; 3])
    [ "__version__ = (" ++ nl; "    # comment" ++ nl; "    '1.0')" ++ nl;
      "old = 1" ++ nl ]
  = Return (3, 4, "").
Proof. reflexivity. Qed.

(** C1 fails as stated, in two ways.  In a file with two pairs of tags,
    every line a statement of its own, the first start tag is line 0 and
    the first end tag after it line 2, and the locator returns [(4, 5)],
    not [(1, 2)]: the last tags win.  And tags inside a statement that the
    pass jumps over are not found: the scanner reports the string of lines
    0 to 3 as one statement, the pass does not evaluate lines 1 to 3, and
    the locator returns [(4, 5)] as in a file without tags. *)
Lemma first_tags_do_not_win :
  (let lines := [ "# <AUTOGEN_INIT>" ++ nl; "x = 1" ++ nl;
                  "# </AUTOGEN_INIT>" ++ nl; "# <AUTOGEN_INIT>" ++ nl;
                  "y = 2" ++ nl; "# </AUTOGEN_INIT>" ++ nl ] in
   map is_start_tag lines = [true; false; false; true; false; false]
   /\ map is_end_tag lines = [false; false; true; false; false; true]
   /\ _find_insert_points each_line lines = Return (4, 5, "")
   /\ forall ind, _find_insert_points each_line lines <> Return (1, 2, ind))
  /\ (let lines := [ triple_dquote ++ nl; "# <AUTOGEN_INIT>" ++ nl;
                     "# </AUTOGEN_INIT>" ++ nl; triple_dquote ++ nl;
                     "x = 1" ++ nl ] in
      map is_start_tag lines = [false; true; false; false; false]
      /\ map is_end_tag lines = [false; false; true; false; false]
      /\ map (evaluated [0; 4] lines) [0; 1; 2; 3; 4]%nat
         = [true; false; false; false; true]
      /\ _find_insert_points (fun _ => Ps1Lines [0; 4]) lines
         = Return (4, 5, "")).
Proof. repeat split. intros ind. discriminate. Qed.

(** C2 fails as stated, in two ways.  A start tag inside a statement that
    the pass jumps over is not seen: the scanner reports the string of
    lines 0 to 2 and the comment of line 3, and the locator returns
    [(4, 4)], not [(2, 3)].  And an end tag with whitespace at the end of
    the file is not kept as it is: the merge trims it. *)
Lemma tags_skipped_or_trimmed :
  (let lines := [ triple_dquote ++ nl; "# <AUTOGEN_INIT>" ++ nl;
                  triple_dquote ++ nl; "# </AUTOGEN_INIT>" ++ nl ] in
   map is_start_tag lines = [false; true; false; false]
   /\ map is_end_tag lines = [false; false; false; true]
   /\ _find_insert_points (fun _ => Ps1Lines [0; 3]) lines
      = Return (4, 4, ""))
  /\ (let lines := [ "# <AUTOGEN_INIT>" ++ nl; "old = 1" ++ nl;
                     "# </AUTOGEN_INIT>  " ++ nl ] in
      _find_insert_points each_line lines = Return (1, 2, "")
      /\ _insert_autogen_text each_line lines "new = 1"
         = Return ("# <AUTOGEN_INIT>" ++ nl ++ "new = 1" ++ nl
                     ++ "# </AUTOGEN_INIT>" ++ nl)
      /\ _insert_autogen_text each_line lines "new = 1"
         <> Return ("# <AUTOGEN_INIT>" ++ nl ++ "new = 1" ++ nl
                      ++ "# </AUTOGEN_INIT>  " ++ nl)).
Proof. repeat split. discriminate. Qed.

(** C5 fails as stated.  Under a start tag indented by four spaces, the
    blank line of the content comes out empty, not as the indentation. *)
Lemma block_is_not_verbatim :
  let lines := [ "preserved1 = True" ++ nl; "if True:" ++ nl;
                 "    # <AUTOGEN_INIT>" ++ nl; "    clobbered2 = True" ++ nl;
                 "    # </AUTOGEN_INIT>" ++ nl; "preserved3 = True" ++ nl ] in
  let initstr := "import a" ++ nl ++ nl ++ "import b" in
  _find_insert_points (fun _ => Ps1Lines [0; 1; 5]) lines
  = Return (3, 4, "    ")
  /\ split_nl (_indent initstr "    ") = [ "    import a"; ""; "    import b" ]
  /\ map (append "    ") (split_nl initstr)
     = [ "    import a"; "    "; "    import b" ]
  /\ _insert_autogen_text (fun _ => Ps1Lines [0; 1; 5]) lines initstr
     = Return ("preserved1 = True" ++ nl ++ "if True:" ++ nl
                 ++ "    # <AUTOGEN_INIT>" ++ nl
                 ++ "    import a" ++ nl ++ nl ++ "    import b" ++ nl
                 ++ "    # </AUTOGEN_INIT>" ++ nl ++ "preserved3 = True" ++ nl).
Proof. repeat split. Qed.

(** C10 fails as stated, in two ways.  The first start tag is indented
    by four spaces and a later one is not; the scanner reports the two
    statements of the file, at lines 0 and 3.  The locator returns the
    empty indentation of the later tag, and the block is not indented.
    And an indented start tag inside a statement that the pass jumps over
    is not found: the indentation is empty. *)
Lemma first_indent_is_not_captured :
  (let lines := [ "if True:" ++ nl; "    # <AUTOGEN_INIT>" ++ nl;
                  "    pass" ++ nl; "# <AUTOGEN_INIT>" ++ nl ] in
   map is_start_tag lines = [false; true; false; true]
   /\ _find_insert_points (fun _ => Ps1Lines [0; 3]) lines
      = Return (4, 4, "")
   /\ _insert_autogen_text (fun _ => Ps1Lines [0; 3]) lines "import a"
      = Return ("if True:" ++ nl ++ "    # <AUTOGEN_INIT>" ++ nl
                  ++ "    pass" ++ nl ++ "# <AUTOGEN_INIT>" ++ nl
                  ++ "import a" ++ nl))
  /\ (let lines := [ triple_dquote ++ nl; "    # <AUTOGEN_INIT>" ++ nl;
                     triple_dquote ++ nl; "x = 1" ++ nl ] in
      map is_start_tag lines = [false; true; false; false]
      /\ evaluated [0; 3] lines 1 = false
      /\ _find_insert_points (fun _ => Ps1Lines [0; 3]) lines
         = Return (3, 4, "")).
Proof. repeat split. Qed.


(** The merge joins the lines as they are: after a last line without a
    newline the content goes on the same line, and a second merge adds the
    content once more. *)
Example unterminated_line_is_glued :
  _insert_autogen_text each_line [ "# my package" ] "import a"
  = Return ("# my packageimport a" ++ nl)
  /\ _insert_autogen_text each_line
       (readlines ("# my packageimport a" ++ nl)) "import a"
     = Return ("# my packageimport a" ++ nl ++ "import a" ++ nl).
Proof. split; reflexivity. Qed.

(** ** The theorems on some files *)

Lemma preamble_exact_boundary_witness :
  each_line (source_lines ["#comment"; "x = 1"; "y = 2"]) = Ps1Lines [0; 1; 2]
  /\ is_implicit "x = 1" = false
  /\ _find_insert_points each_line ["#comment"; "x = 1"; "y = 2"]
     = Return (1, 3, "").
Proof.
  split; [reflexivity|].
  apply (preamble_exact_boundary each_line). reflexivity.
Defined.

Lemma malformed_pairing_is_fatal_witness :
  ps1_lines_of each_line
    [ "# <AUTOGEN_INIT>"; "# </AUTOGEN_INIT>"; "# <AUTOGEN_INIT>" ]
  = Return [0; 1; 2]
  /\ _find_insert_points each_line
       [ "# <AUTOGEN_INIT>"; "# </AUTOGEN_INIT>"; "# <AUTOGEN_INIT>" ]
     = AssertionError.
Proof.
  split; [reflexivity|].
  apply (proj1 (malformed_pairing_is_fatal each_line
           [ "# <AUTOGEN_INIT>"; "# </AUTOGEN_INIT>"; "# <AUTOGEN_INIT>" ])
           [0; 1; 2]).
  - reflexivity.
  - vm_compute. reflexivity.
Defined.

Lemma insertion_point_within_file_witness :
  _find_insert_points (fun _ => Ps1Lines [0; 1; 5])
    [ "preserved1 = True"; "if True:"; "    # <AUTOGEN_INIT>";
      "    clobbered2 = True"; "    # </AUTOGEN_INIT>"; "preserved3 = True" ]
  = Return (3, 4, "    ")
  /\ 0 <= 3 <= 4 /\ 4 <= 6.
Proof.
  split; [reflexivity|].
  apply (insertion_point_within_file (fun _ => Ps1Lines [0; 1; 5])
           [ "preserved1 = True"; "if True:"; "    # <AUTOGEN_INIT>";
             "    clobbered2 = True"; "    # </AUTOGEN_INIT>";
             "preserved3 = True" ] 3 4 "    ").
  - intros ps1 [= <-]. repeat constructor; simpl; lia.
  - reflexivity.
Defined.

Lemma merged_text_spliced_witness :
  each_line [] <> OtherError
  /\ _insert_autogen_text each_line [] ("import a" ++ nl ++ "import b")
     = Return ("import a" ++ nl ++ "import b" ++ nl).
Proof.
  split; [discriminate|].
  apply (proj2 (merged_text_spliced each_line)). discriminate.
Defined.

Lemma last_tags_win_witness :
  _find_insert_points (fun _ => Ps1Lines [0; 3; 4; 5; 6; 7; 8; 9])
    ([ triple_dquote ++ "doc" ++ nl; "# <AUTOGEN_INIT>" ++ nl;
       triple_dquote ++ nl; "# <AUTOGEN_INIT>" ++ nl; "x = 1" ++ nl;
       "# </AUTOGEN_INIT>" ++ nl ]
       ++ ("# <AUTOGEN_INIT>" ++ nl)
       :: [ "y = 2" ++ nl ] ++ ("# </AUTOGEN_INIT>" ++ nl) :: [ "z = 3" ++ nl ])
  = Return (7, 8, "").
Proof.
  apply (last_tags_win (fun _ => Ps1Lines [0; 3; 4; 5; 6; 7; 8; 9])
           [ triple_dquote ++ "doc" ++ nl; "# <AUTOGEN_INIT>" ++ nl;
             triple_dquote ++ nl; "# <AUTOGEN_INIT>" ++ nl; "x = 1" ++ nl;
             "# </AUTOGEN_INIT>" ++ nl ]
           [ "y = 2" ++ nl ] [ "z = 3" ++ nl ]
           ("# <AUTOGEN_INIT>" ++ nl) ("# </AUTOGEN_INIT>" ++ nl)
           [0; 3; 4; 5; 6; 7; 8; 9]); reflexivity.
Defined.

Lemma marker_round_trip_witness :
  _find_insert_points (fun _ => Ps1Lines [0; 2; 3; 4; 6])
    ([ "# pkg" ++ nl; nl ]
       ++ ("# <AUTOGEN_INIT>" ++ nl)
       :: [ "old = 1" ++ nl; "# note" ++ nl; nl ]
       ++ ("# </AUTOGEN_INIT>" ++ nl) :: [ "tail = 2" ++ nl ])
  = Return (3, 6, "")
  /\ _insert_autogen_text (fun _ => Ps1Lines [0; 2; 3; 4; 6])
       ([ "# pkg" ++ nl; nl ]
          ++ ("# <AUTOGEN_INIT>" ++ nl)
          :: [ "old = 1" ++ nl; "# note" ++ nl; nl ]
          ++ ("# </AUTOGEN_INIT>" ++ nl) :: [ "tail = 2" ++ nl ])
       "import a"
     = Return ("# pkg" ++ nl ++ nl ++ "# <AUTOGEN_INIT>" ++ nl
                 ++ "import a" ++ nl ++ "# </AUTOGEN_INIT>" ++ nl
                 ++ "tail = 2" ++ nl).
Proof.
  pose proof (marker_round_trip (fun _ => Ps1Lines [0; 2; 3; 4; 6])
           [ "# pkg" ++ nl; nl ]
           [ "old = 1" ++ nl; "# note" ++ nl; nl ] [ "tail = 2" ++ nl ]
           ("# <AUTOGEN_INIT>" ++ nl) ("# </AUTOGEN_INIT>" ++ nl)
           [0; 2; 3; 4; 6] "import a"
           eq_refl eq_refl eq_refl eq_refl eq_refl eq_refl eq_refl)
    as [H1 [H2 _]].
  split; [exact H1|exact H2].
Defined.

Lemma inserted_block_lines_witness :
  _find_insert_points (fun _ => Ps1Lines [0; 1; 5])
    [ "preserved1 = True" ++ nl; "if True:" ++ nl;
      "    # <AUTOGEN_INIT>" ++ nl; "    clobbered2 = True" ++ nl;
      "    # </AUTOGEN_INIT>" ++ nl; "preserved3 = True" ++ nl ]
  = Return (3, 4, "    ")
  /\ split_nl (_indent ("import a  " ++ nl ++ nl ++ "import b") "    ")
     = [ "    import a"; ""; "    import b" ].
Proof.
  split; [reflexivity|].
  apply (proj1 (inserted_block_lines (fun _ => Ps1Lines [0; 1; 5])
           [ "preserved1 = True" ++ nl; "if True:" ++ nl;
             "    # <AUTOGEN_INIT>" ++ nl; "    clobbered2 = True" ++ nl;
             "    # </AUTOGEN_INIT>" ++ nl; "preserved3 = True" ++ nl ]
           ("import a  " ++ nl ++ nl ++ "import b") 3 4 "    "
           eq_refl eq_refl)).
Defined.

Lemma indent_capture_witness :
  _find_insert_points (fun _ => Ps1Lines [0; 3; 5])
    ([ "if True:" ++ nl ]
       ++ ("    # <AUTOGEN_INIT>" ++ nl)
       :: [ "    old = 1" ++ nl; "# note" ++ nl; nl; "y = 2" ++ nl ])
  = Return (2, 6, "    ")
  /\ split_nl (_indent ("import a" ++ nl ++ nl ++ "import b") "    ")
     = [ "    import a"; ""; "    import b" ].
Proof.
  split; [reflexivity|].
  apply (indent_capture (fun _ => Ps1Lines [0; 3; 5])
           [ "if True:" ++ nl ]
           [ "    old = 1" ++ nl; "# note" ++ nl; nl; "y = 2" ++ nl ]
           ("    # <AUTOGEN_INIT>" ++ nl) (" <AUTOGEN_INIT>" ++ nl)
           [0; 3; 5] ("import a" ++ nl ++ nl ++ "import b") 2 6 "    "
           eq_refl eq_refl eq_refl eq_refl eq_refl eq_refl).
Defined.


(** ** The further properties on some inputs *)

Lemma bad_option_key_raises_witness :
  _ensure_options
    (Some ([ ("with_all", false) ] ++ ("with_header", true)
             :: [ ("relative", true) ])%list)
  = KeyError "options got bad key=with_header".
Proof.
  apply (bad_option_key_raises [ ("with_all", false) ] [ ("relative", true) ]
           "with_header" true); reflexivity.
Defined.

Lemma ensured_options_lookup_witness :
  exists options,
    _ensure_options (Some [ ("relative", true); ("with_all", false) ])
    = Options options
    /\ map fst options = [ "with_attrs"; "with_mods"; "with_all"; "relative" ]
    /\ forall k,
         dict_get k options
         = match dict_get k [ ("relative", true); ("with_all", false) ] with
           | Some v => Some v
           | None => dict_get k default_options
           end.
Proof.
  apply (ensured_options_lookup [ ("relative", true); ("with_all", false) ]).
  - reflexivity.
  - repeat constructor; simpl; intuition discriminate.
Defined.

Lemma ensure_options_idempotent_witness :
  _ensure_options
    (Some [ ("with_attrs", true); ("with_mods", false); ("with_all", true);
            ("relative", false) ])
  = Options [ ("with_attrs", true); ("with_mods", false); ("with_all", true);
              ("relative", false) ].
Proof.
  apply (ensure_options_idempotent (Some [ ("with_mods", false) ])).
  reflexivity.
Defined.

Lemma file_without_pattern_is_replaced_witness :
  _find_insert_points each_line [ "x = 1" ++ nl; "y = 2" ++ nl ]
  = Return (0, 2, "")
  /\ _insert_autogen_text each_line [ "x = 1" ++ nl; "y = 2" ++ nl ]
       ("import a  " ++ nl ++ "import b" ++ nl)
     = Return ("import a" ++ nl ++ "import b" ++ nl).
Proof.
  exact (file_without_pattern_is_replaced each_line
           [ "x = 1" ++ nl; "y = 2" ++ nl ] [0; 1]
           ("import a  " ++ nl ++ "import b" ++ nl) eq_refl eq_refl).
Defined.

Lemma end_tag_alone_is_ignored_witness :
  _find_insert_points each_line
    [ "x = 1" ++ nl; "# </AUTOGEN_INIT>" ++ nl; "y = 2" ++ nl ]
  = Return (2, 3, "")
  /\ _insert_autogen_text each_line
       [ "x = 1" ++ nl; "# </AUTOGEN_INIT>" ++ nl; "y = 2" ++ nl ] "import a"
     = Return ("x = 1" ++ nl ++ "# </AUTOGEN_INIT>" ++ nl ++ "import a" ++ nl).
Proof.
  split; [reflexivity|].
  exact (proj2 (proj2 (end_tag_alone_is_ignored each_line
           [ "x = 1" ++ nl; "# </AUTOGEN_INIT>" ++ nl; "y = 2" ++ nl ]
           2 3 "" "import a" eq_refl eq_refl))).
Defined.

Lemma captured_indent_is_whitespace_witness :
  blank "    " = true
  /\ ("    " = ""
      \/ exists line rest,
           In line [ "if True:" ++ nl; "    # <AUTOGEN_INIT>" ++ nl;
                     "    old = 1" ++ nl; "    # </AUTOGEN_INIT>" ++ nl ]
           /\ is_start_tag line = true
           /\ line = "    " ++ String "#"%char rest).
Proof.
  exact (captured_indent_is_whitespace each_line
           [ "if True:" ++ nl; "    # <AUTOGEN_INIT>" ++ nl;
             "    old = 1" ++ nl; "    # </AUTOGEN_INIT>" ++ nl ]
           2 3 "    " eq_refl).
Defined.

Lemma preamble_ends_after_last_pattern_witness :
  _find_insert_points each_line
    ([ "# pkg" ++ nl; "x = 1" ++ nl ]
       ++ ("__version__ = '1'" ++ nl) :: [ "y = 2" ++ nl ])
  = Return (3, 4, "").
Proof.
  exact (preamble_ends_after_last_pattern each_line
           [ "# pkg" ++ nl; "x = 1" ++ nl ] [ "y = 2" ++ nl ]
           ("__version__ = '1'" ++ nl) [0; 1; 2; 3]
           eq_refl eq_refl eq_refl eq_refl eq_refl eq_refl).
Defined.

Lemma start_tag_without_end_tag_witness :
  _find_insert_points (fun _ => Ps1Lines [0; 3; 5])
    ([ "if True:" ++ nl ] ++ ("    # <AUTOGEN_INIT>" ++ nl)
       :: [ "    old = 1" ++ nl; "# note" ++ nl; nl; "y = 2" ++ nl ])
  = Return (2, 6, "    ")
  /\ _insert_autogen_text (fun _ => Ps1Lines [0; 3; 5])
       ([ "if True:" ++ nl ] ++ ("    # <AUTOGEN_INIT>" ++ nl)
          :: [ "    old = 1" ++ nl; "# note" ++ nl; nl; "y = 2" ++ nl ])
       "import a"
     = Return ("if True:" ++ nl ++ "    # <AUTOGEN_INIT>" ++ nl
                 ++ "    import a" ++ nl).
Proof.
  exact (start_tag_without_end_tag (fun _ => Ps1Lines [0; 3; 5])
           [ "if True:" ++ nl ]
           [ "    old = 1" ++ nl; "# note" ++ nl; nl; "y = 2" ++ nl ]
           ("    # <AUTOGEN_INIT>" ++ nl) [0; 3; 5] "import a"
           eq_refl eq_refl eq_refl eq_refl eq_refl eq_refl).
Defined.

Lemma end_tag_before_last_start_tag_raises_witness :
  _find_insert_points (fun _ => Ps1Lines [0; 1; 3; 4; 5])
    ([ ] ++ ("# <AUTOGEN_INIT>" ++ nl)
       :: [ ] ++ ("# </AUTOGEN_INIT>" ++ nl)
       :: [ nl; "x = 1" ++ nl ] ++ ("# <AUTOGEN_INIT>" ++ nl)
       :: [ "y = 2" ++ nl ])
  = AssertionError
  /\ _insert_autogen_text (fun _ => Ps1Lines [0; 1; 3; 4; 5])
       ([ ] ++ ("# <AUTOGEN_INIT>" ++ nl)
          :: [ ] ++ ("# </AUTOGEN_INIT>" ++ nl)
          :: [ nl; "x = 1" ++ nl ] ++ ("# <AUTOGEN_INIT>" ++ nl)
          :: [ "y = 2" ++ nl ])
       "import a"
     = AssertionError.
Proof.
  exact (end_tag_before_last_start_tag_raises
           (fun _ => Ps1Lines [0; 1; 3; 4; 5])
           [ ] [ ] [ nl; "x = 1" ++ nl ] [ "y = 2" ++ nl ]
           ("# <AUTOGEN_INIT>" ++ nl) ("# </AUTOGEN_INIT>" ++ nl)
           ("# <AUTOGEN_INIT>" ++ nl) [0; 1; 3; 4; 5] "import a"
           eq_refl eq_refl eq_refl eq_refl eq_refl eq_refl eq_refl eq_refl
           eq_refl).
Defined.

Lemma multiline_statement_is_skipped_witness :
  _find_insert_points (fun _ => Ps1Lines [0; 3])
    [ "__version__ = (" ++ nl; "    # comment" ++ nl; "    '1.0')" ++ nl;
      "old = 1" ++ nl ]
  = Return (3, 4, "")
  /\ 3 <= 3.
Proof.
  split; [reflexivity|].
  apply (multiline_statement_is_skipped (fun _ => Ps1Lines [0; 3])
           [ "__version__ = (" ++ nl; "    # comment" ++ nl;
             "    '1.0')" ++ nl; "old = 1" ++ nl ]
           [0; 3] 0 ("__version__ = (" ++ nl) 3 3 4 "").
  - reflexivity.
  - repeat constructor; lia.
  - repeat constructor; simpl; lia.
  - reflexivity.
  - reflexivity.
  - reflexivity.
  - reflexivity.
  - reflexivity.
Defined.

Lemma merge_keeps_prefix_witness :
  exists new_text,
    _insert_autogen_text each_line
      [ "x = 1  " ++ nl; "# <AUTOGEN_INIT>" ++ nl; "old = 1" ++ nl;
        "# </AUTOGEN_INIT>" ++ nl ] "import a"
    = Return new_text
    /\ startswith new_text
         (rstrip (join "" (upto 2 [ "x = 1  " ++ nl; "# <AUTOGEN_INIT>" ++ nl;
                                    "old = 1" ++ nl;
                                    "# </AUTOGEN_INIT>" ++ nl ]))) = true
    /\ (blank (_indent "import a" "") = false ->
        startswith new_text
          (join "" (upto 2 [ "x = 1  " ++ nl; "# <AUTOGEN_INIT>" ++ nl;
                             "old = 1" ++ nl; "# </AUTOGEN_INIT>" ++ nl ])
             ++ rstrip (_indent "import a" "")) = true).
Proof.
  exact (merge_keeps_prefix each_line
           [ "x = 1  " ++ nl; "# <AUTOGEN_INIT>" ++ nl; "old = 1" ++ nl;
             "# </AUTOGEN_INIT>" ++ nl ] "import a" 2 3 "" eq_refl).
Defined.

Lemma merge_keeps_suffix_witness :
  _insert_autogen_text each_line
    [ "x = 1  " ++ nl; "# <AUTOGEN_INIT>" ++ nl; "old = 1" ++ nl;
      "# </AUTOGEN_INIT>" ++ nl; "y = 2" ++ nl; nl ] "import a"
  = Return ("x = 1  " ++ nl ++ "# <AUTOGEN_INIT>" ++ nl ++ "import a" ++ nl
              ++ "# </AUTOGEN_INIT>" ++ nl ++ "y = 2" ++ nl).
Proof.
  exact (merge_keeps_suffix each_line
           [ "x = 1  " ++ nl; "# <AUTOGEN_INIT>" ++ nl; "old = 1" ++ nl;
             "# </AUTOGEN_INIT>" ++ nl; "y = 2" ++ nl; nl ]
           "import a" 2 3 "" eq_refl eq_refl).
Defined.

Lemma old_block_is_forgotten_witness :
  _insert_autogen_text (fun _ => Ps1Lines [0; 1; 2; 4])
    ([ "# pkg" ++ nl ] ++ ("# <AUTOGEN_INIT>" ++ nl)
       :: [ "old = 1" ++ nl; "# note" ++ nl; nl; "older = 0" ++ nl ]
       ++ ("# </AUTOGEN_INIT>" ++ nl) :: [ nl; "y = 2" ++ nl ])
    "import a"
  = _insert_autogen_text (fun _ => Ps1Lines [0; 1; 2; 4])
      ([ "# pkg" ++ nl ] ++ ("# <AUTOGEN_INIT>" ++ nl)
         :: [ ] ++ ("# </AUTOGEN_INIT>" ++ nl) :: [ nl; "y = 2" ++ nl ])
      "import a".
Proof.
  exact (old_block_is_forgotten (fun _ => Ps1Lines [0; 1; 2; 4])
           [ "# pkg" ++ nl ]
           [ "old = 1" ++ nl; "# note" ++ nl; nl; "older = 0" ++ nl ] [ ]
           [ nl; "y = 2" ++ nl ] ("# <AUTOGEN_INIT>" ++ nl)
           ("# </AUTOGEN_INIT>" ++ nl) [0; 1; 2; 4] [0; 1; 2; 4]
           "import a"
           eq_refl eq_refl eq_refl eq_refl eq_refl eq_refl eq_refl eq_refl
           eq_refl eq_refl eq_refl eq_refl).
Defined.

Lemma indent_twice_witness :
  _indent (_indent ("a = 1" ++ nl ++ nl ++ "b = 2") "  ") "    "
  = _indent ("a = 1" ++ nl ++ nl ++ "b = 2") ("    " ++ "  ").
Proof.
  exact (indent_twice ("a = 1" ++ nl ++ nl ++ "b = 2") "  " "    "
           eq_refl eq_refl).
Defined.

Lemma imports_str_lines_witness :
  _make_imports_str [ ".bar"; "..baz"; "os" ] "foo"
  = Formatted ("from foo import bar" ++ nl ++ "from foo import baz" ++ nl
                 ++ "import os").
Proof.
  exact (imports_str_lines [ ".bar"; "..baz"; "os" ] "foo" eq_refl).
Defined.

Lemma relative_level_is_dropped_witness :
  _make_imports_str [ ".bar"; "...baz" ] "foo"
  = _make_imports_str [ "..bar"; ".baz" ] "foo".
Proof.
  apply (relative_level_is_dropped [ ".bar"; "...baz" ] [ "..bar"; ".baz" ]).
  repeat constructor.
Defined.
